(** * Document pipeline: ingestion, extraction, classification, reconciliation

    A shallow embedding of the server-side services of the document
    ingestion pipeline:

    - [IngestionService.ingestion]        (ingestion/ingestion.service.ts)
    - [OcrService.processOcr]             (ocr/ocr.service.ts)
    - [ClassificationService.processClassification]
                                          (classification/classification.service.ts)
    - [EventPipelineService.update]       (event-pipeline/event-pipeline.service.ts)

    together with the two Mongoose models they write (models/submission.ts,
    models/attachment.ts) and the message types of types.ts.

    Promises are modelled by how they settle ([Settled]); the services run in
    a small state monad ([Task]) over a [World] that holds the two MongoDB
    collections, the Kafka log and the Redis keys. *)

From Stdlib Require Import String Ascii List Bool NArith QArith Lia.
From Stdlib Require Import DecimalString.
Import ListNotations.

Local Open Scope string_scope.
Local Open Scope list_scope.

(* ================================================================== *)
(** ** JavaScript string helpers *)

Module Js.

(** [String.prototype.startsWith]. *)
Definition startsWith (needle s : string) : bool := String.prefix needle s.

(** [String.prototype.includes]: [needle] occurs somewhere in [s]. *)
Fixpoint includes (needle s : string) : bool :=
  String.prefix needle s ||
  match s with
  | EmptyString => false
  | String _ rest => includes needle rest
  end.

(** A character of a string is one UTF-16 code unit below 256 (Latin-1), by
    its code.  Of the white space and line terminators that [trim] strips,
    these are TAB, LF, VT, FF, CR (9 to 13), SPACE (32) and NO-BREAK SPACE
    (160); the others (U+1680, U+2000 to U+200A, U+2028, U+2029, U+202F,
    U+205F, U+3000, U+FEFF) have no code below 256. *)
Definition isSpace (c : ascii) : bool :=
  let n := nat_of_ascii c in
  (Nat.leb 9 n && Nat.leb n 13) || Nat.eqb n 32 || Nat.eqb n 160.

Fixpoint trimStart (s : string) : string :=
  match s with
  | EmptyString => EmptyString
  | String c rest => if isSpace c then trimStart rest else s
  end.

(** Drops the white space at the end: a character stays when it is not
    white space or when something stays after it. *)
Fixpoint trimEnd (s : string) : string :=
  match s with
  | EmptyString => EmptyString
  | String c rest =>
      match trimEnd rest with
      | EmptyString => if isSpace c then EmptyString else String c EmptyString
      | kept => String c kept
      end
  end.

(** [String.prototype.trim]. *)
Definition trim (s : string) : string := trimEnd (trimStart s).

(** [a || b] on an optional string: [undefined] and the empty string are
    falsy. *)
Definition orElse (a : option string) (b : string) : string :=
  match a with
  | Some (String c rest) => String c rest
  | _ => b
  end.

(** [a ?? b]. *)
Definition nullish (a : option string) (b : string) : string :=
  match a with
  | Some s => s
  | None => b
  end.

End Js.

(* ================================================================== *)
(** ** Message types (types.ts) *)

(** One entry of an attachment list.  A field that is absent
    ([undefined]) or [null] is [None]. *)
Module Attachment.
Record t := mk {
  filename       : option string;
  content_type   : string;
  url            : string;
  text           : option string;
  classification : option string;
  confidence     : option Q
}.

Definition set_text (a : t) (v : string) : t :=
  mk (filename a) (content_type a) (url a) (Some v)
     (classification a) (confidence a).

Definition set_classification (a : t) (v : option string) : t :=
  mk (filename a) (content_type a) (url a) (text a) v (confidence a).

Definition set_confidence (a : t) (v : option Q) : t :=
  mk (filename a) (content_type a) (url a) (text a) (classification a) v.
End Attachment.

(** The [metadata] object shared by [IngestionObject], [OcrObject],
    [ClassificationObject] and [AnalysisObject]; dates are milliseconds. *)
Module Metadata.
Record t := mk {
  subject       : string;
  sender        : string;
  body          : string;
  timestamp     : N;
  id            : string;
  attachments   : list Attachment.t;
  submission_id : string
}.

Definition set_attachments (m : t) (l : list Attachment.t) : t :=
  mk (subject m) (sender m) (body m) (timestamp m) (id m) l (submission_id m).
End Metadata.

(** [IngestionObject | OcrObject | ClassificationObject | AnalysisObject]:
    the four interfaces have the same shape. *)
Module Payload.
Record t := mk { metadata : Metadata.t }.

Definition attachments (p : t) : list Attachment.t :=
  Metadata.attachments (metadata p).

Definition set_attachments (p : t) (l : list Attachment.t) : t :=
  mk (Metadata.set_attachments (metadata p) l).
End Payload.

Module Event.
Record t := mk {
  id      : string;
  message : string;
  data    : Payload.t
}.
End Event.

(* ================================================================== *)
(** ** Promises and errors *)

(** What is thrown.  A Mongoose validation error is given by the first of
    the paths it names. *)
Inductive Error : Type :=
| JsError (message : string)
| ValidationError (path : string)
| TypeError (message : string)
| InternalServerErrorException (message : string).

(** How an awaited promise ends: with a value, with a thrown error, or not
    at all. *)
Inductive Settled (A : Type) : Type :=
| Resolved (a : A)
| Rejected (e : Error)
| Pending.

Arguments Resolved {A} a.
Arguments Rejected {A} e.
Arguments Pending {A}.

(** [Promise.all]: rejects as soon as one promise rejects, otherwise waits for
    every promise. *)
Fixpoint Promise_all {A} (ps : list (Settled A)) : Settled (list A) :=
  match ps with
  | [] => Resolved []
  | p :: rest =>
      match p, Promise_all rest with
      | Rejected e, _ => Rejected e
      | _, Rejected e => Rejected e
      | Pending, _ => Pending
      | _, Pending => Pending
      | Resolved a, Resolved l => Resolved (a :: l)
      end
  end.

(** [try { body } catch (err) { handler err }] around an awaited promise. *)
Definition tryCatch {A} (body : Settled A) (handler : Error -> Settled A)
  : Settled A :=
  match body with
  | Rejected e => handler e
  | other => other
  end.

(* ================================================================== *)
(** ** The stores: MongoDB collections, Kafka log, Redis keys *)

Definition ObjectId := N.

(** models/submission.ts.  [createdAt] and [updatedAt] are the two columns
    that the store maintains by itself ([timestamps: true]). *)
Module Submission.
Record t := mk {
  _id         : ObjectId;
  sender      : string;
  body        : string;
  timestamp   : N;
  id          : string;
  attachments : option ObjectId;
  status      : string;
  createdAt   : N;
  updatedAt   : N
}.

Definition set_status (v : string) (d : t) : t :=
  mk (_id d) (sender d) (body d) (timestamp d) (id d) (attachments d) v
     (createdAt d) (updatedAt d).

Definition set_attachments_status (a : ObjectId) (v : string) (d : t) : t :=
  mk (_id d) (sender d) (body d) (timestamp d) (id d) (Some a) v
     (createdAt d) (updatedAt d).

(** What [timestamps: true] adds to the [$set] of every update. *)
Definition touch (date : N) (d : t) : t :=
  mk (_id d) (sender d) (body d) (timestamp d) (id d) (attachments d)
     (status d) (createdAt d) date.
End Submission.

(** models/attachment.ts: one document holds the attachment list of one
    submission. *)
Module AttachmentSet.
Record t := mk {
  _id         : ObjectId;
  attachments : list Attachment.t;
  createdAt   : N;
  updatedAt   : N
}.

Definition set_attachments (l : list Attachment.t) (d : t) : t :=
  mk (_id d) l (createdAt d) (updatedAt d).

(** What [timestamps: true] adds to the [$set] of every update. *)
Definition touch (date : N) (d : t) : t :=
  mk (_id d) (attachments d) (createdAt d) date.
End AttachmentSet.

(** What [kafkaService.publishMessage] is given: an event or a bare payload. *)
Inductive Published : Type :=
| PubEvent (e : Event.t)
| PubPayload (p : Payload.t).

Record RedisEntry := mkRedisEntry {
  redis_key    : string;
  redis_value  : Event.t;
  redis_expiry : option N
}.

Record World := mkWorld {
  submissions     : list Submission.t;
  attachment_sets : list AttachmentSet.t;
  next_oid        : ObjectId;
  clock           : N;
  kafka           : list (string * Published);
  redis           : list RedisEntry
}.

(** An async function over the stores. *)
Definition Task (A : Type) : Type := World -> World * Settled A.

Definition ret {A} (a : A) : Task A := fun w => (w, Resolved a).

Definition throw {A} (e : Error) : Task A := fun w => (w, Rejected e).

Definition await {A} (p : Settled A) : Task A := fun w => (w, p).

Definition bind {A B} (m : Task A) (k : A -> Task B) : Task B :=
  fun w =>
    match m w with
    | (w', Resolved a) => k a w'
    | (w', Rejected e) => (w', Rejected e)
    | (w', Pending) => (w', Pending)
    end.

Definition tryCatchT {A} (body : Task A) (handler : Error -> Task A) : Task A :=
  fun w =>
    match body w with
    | (w', Rejected e) => handler e w'
    | other => other
    end.

Declare Scope task_scope.
Delimit Scope task_scope with task.
Notation "x <- m ;; k" := (bind m (fun x => k))
  (at level 61, m at next level, right associativity) : task_scope.
Notation "m ;; k" := (bind m (fun _ => k))
  (at level 61, right associativity) : task_scope.
Local Open Scope task_scope.

(** [Date.now()] / [new Date()]. *)
Definition now : Task N := fun w => (w, Resolved (clock w)).

(** The first element that satisfies [p] is replaced by its image under [f];
    the others stay: what [updateOne] does to a collection. *)
Fixpoint update_first {A} (p : A -> bool) (f : A -> A) (l : list A) : list A :=
  match l with
  | [] => []
  | x :: rest => if p x then f x :: rest else x :: update_first p f rest
  end.

(** Mongoose's [required: true] on a [String] path: the empty string fails. *)
Definition required (s : string) : bool :=
  match s with EmptyString => false | _ => true end.

Module SubmissionModel.

Definition has_id (i : string) (d : Submission.t) : bool :=
  String.eqb (Submission.id d) i.

(** [submission.create({subject, sender, body, id, status})]: [subject] is
    not a path of the schema and is dropped; [timestamp] and [attachments]
    take their defaults, [createdAt] and [updatedAt] the time of the call.
    Of the paths that fail, the error is given by the first in schema
    order. *)
Definition create (sender body id status : string)
  : Task (option Submission.t) :=
  fun w =>
    if negb (required sender) then (w, Rejected (ValidationError "sender"))
    else if negb (required body) then (w, Rejected (ValidationError "body"))
    else if negb (required id) then (w, Rejected (ValidationError "id"))
    else if negb (required status) then (w, Rejected (ValidationError "status"))
    else
      let doc := Submission.mk (next_oid w) sender body (clock w) id None status
                               (clock w) (clock w) in
      (mkWorld (submissions w ++ [doc]) (attachment_sets w)
               (N.succ (next_oid w)) (clock w) (kafka w) (redis w),
       Resolved (Some doc)).

(** [submission.updateOne({ id }, { $set })]: the first record that matches
    takes the [$set] and, the schema having [timestamps: true], a new
    [updatedAt]. *)
Definition updateOne (i : string) (set : Submission.t -> Submission.t)
  : Task unit :=
  fun w =>
    (mkWorld (update_first (has_id i)
                           (fun d => Submission.touch (clock w) (set d))
                           (submissions w))
             (attachment_sets w)
             (next_oid w) (clock w) (kafka w) (redis w),
     Resolved tt).

(** [submission.findOne({ id })]. *)
Definition findOne (i : string) : Task (option Submission.t) :=
  fun w => (w, Resolved (find (has_id i) (submissions w))).

End SubmissionModel.

Module AttachmentModel.

Definition has_oid (o : ObjectId) (d : AttachmentSet.t) : bool :=
  N.eqb (AttachmentSet._id d) o.

(** The three [required] paths of an entry. *)
Definition entry_valid (a : Attachment.t) : bool :=
  match Attachment.filename a with
  | Some f => required f
  | None => false
  end
  && required (Attachment.content_type a)
  && required (Attachment.url a).

(** The first [required] path of an entry that fails, in schema order. *)
Definition missing (a : Attachment.t) : option string :=
  if negb (match Attachment.filename a with
           | Some f => required f
           | None => false
           end) then Some "filename"
  else if negb (required (Attachment.content_type a)) then Some "content_type"
  else if negb (required (Attachment.url a)) then Some "url"
  else None.

Definition index (i : nat) : string := NilEmpty.string_of_uint (Nat.to_uint i).

(** The path that the validation error names: [attachments.<i>.<field>] for
    the first entry, from position [i] on, that misses a required field. *)
Fixpoint failingPath (i : nat) (l : list Attachment.t) : string :=
  match l with
  | [] => "attachments"
  | a :: rest =>
      match missing a with
      | Some field => "attachments." ++ index i ++ "." ++ field
      | None => failingPath (S i) rest
      end
  end.

(** [attachment.create({ attachments })]; [createdAt] and [updatedAt] are the
    time of the call.  Of the paths that fail, the error is given by the
    first in document order. *)
Definition create (l : list Attachment.t) : Task AttachmentSet.t :=
  fun w =>
    if forallb entry_valid l then
      let doc := AttachmentSet.mk (next_oid w) l (clock w) (clock w) in
      (mkWorld (submissions w) (attachment_sets w ++ [doc])
               (N.succ (next_oid w)) (clock w) (kafka w) (redis w),
       Resolved doc)
    else (w, Rejected (ValidationError (failingPath 0 l))).

(** [attachment.updateOne({ _id }, { $set: { attachments } })]: the first
    document that matches takes the list and, the schema having
    [timestamps: true], a new [updatedAt]. *)
Definition updateOne (o : ObjectId) (l : list Attachment.t) : Task unit :=
  fun w =>
    (mkWorld (submissions w)
             (update_first (has_oid o)
                           (fun d => AttachmentSet.touch (clock w)
                                       (AttachmentSet.set_attachments l d))
                           (attachment_sets w))
             (next_oid w) (clock w) (kafka w) (redis w),
     Resolved tt).

End AttachmentModel.

(** lib/kafka.ts, [KafkaService.publishMessage]: the message is appended to
    the topic's log.  The broker, like the cache below, always accepts the
    write. *)
Definition publishMessage (topic : string) (m : Published) : Task unit :=
  fun w =>
    (mkWorld (submissions w) (attachment_sets w) (next_oid w) (clock w)
             (kafka w ++ [(topic, m)]) (redis w),
     Resolved tt).

(** [redis.set(key, JSON.stringify(event))], with [EX seconds] when an expiry
    is given: the key's old value is replaced. *)
Definition redis_set (key : string) (v : Event.t) (ex : option N) : Task unit :=
  fun w =>
    (mkWorld (submissions w) (attachment_sets w) (next_oid w) (clock w) (kafka w)
             (mkRedisEntry key v ex
                :: filter (fun e => negb (String.eqb (redis_key e) key)) (redis w)),
     Resolved tt).

(* ================================================================== *)
(** ** Ingestion stage (ingestion/ingestion.service.ts) *)

Module IngestionService.

(** The attachment list sent on to the extraction stage: file name, content
    type and location only. *)
Definition normalize (att : Attachment.t) : Attachment.t :=
  Attachment.mk (Some (Js.nullish (Attachment.filename att) EmptyString))
                (Attachment.content_type att) (Attachment.url att)
                None None None.

Definition ingestion (message : Payload.t) : Task unit :=
  let md := Payload.metadata message in
  sub <- SubmissionModel.create (Metadata.sender md) (Metadata.body md)
                                (Metadata.id md) "ingestion in progress" ;;
  match sub with
  | None => throw (InternalServerErrorException "Submission population failed")
  | Some sub =>
      (match Metadata.attachments md with
       | [] => ret tt
       | _ :: _ =>
           attch <- AttachmentModel.create (Metadata.attachments md) ;;
           SubmissionModel.updateOne (Submission.id sub)
             (Submission.set_attachments_status (AttachmentSet._id attch)
                                                "ingestion done")
       end) ;;
      date <- now ;;
      let payload :=
        Payload.mk
          (Metadata.mk (Metadata.subject md) (Metadata.sender md)
                       (Metadata.body md) date (Metadata.id md)
                       (map normalize (Metadata.attachments md))
                       (Submission.id sub)) in
      let event := Event.mk (Metadata.id md) "ingestion_completed" payload in
      redis_set ("redis:status:" ++ Event.id event) event None ;;
      publishMessage "event.pipeline" (PubEvent event) ;;
      publishMessage "ocr.init" (PubPayload payload)
  end.

End IngestionService.

(** What the statements about ingestion observe. *)

(** The event passes the [required] validators of both schemas. *)
Definition valid_event (message : Payload.t) : bool :=
  let md := Payload.metadata message in
  required (Metadata.sender md) && required (Metadata.body md)
  && required (Metadata.id md)
  && forallb AttachmentModel.entry_valid (Metadata.attachments md).

(** How many Submission records carry the identifier [i]. *)
Definition count_id (i : string) (w : World) : nat :=
  length (filter (SubmissionModel.has_id i) (submissions w)).

(** The record that [submission.create] inserts for [message] into [w]. *)
Definition created (message : Payload.t) (w : World) : Submission.t :=
  let md := Payload.metadata message in
  Submission.mk (next_oid w) (Metadata.sender md) (Metadata.body md) (clock w)
                (Metadata.id md) None "ingestion in progress"
                (clock w) (clock w).

(** The Submission [d] once ingestion has linked it, at time [date], to the
    Attachment-set [ref]. *)
Definition linkedTo (ref : ObjectId) (date : N) (d : Submission.t)
  : Submission.t :=
  Submission.touch date
    (Submission.set_attachments_status ref "ingestion done" d).

(** The payload that ingestion sends on for [message] at time [date]. *)
Definition forwarded (message : Payload.t) (date : N) : Payload.t :=
  let md := Payload.metadata message in
  Payload.mk (Metadata.mk (Metadata.subject md) (Metadata.sender md)
                          (Metadata.body md) date (Metadata.id md)
                          (map IngestionService.normalize
                               (Metadata.attachments md))
                          (Metadata.id md)).

(* ================================================================== *)
(** ** Status reconciler (event-pipeline/event-pipeline.service.ts) *)

Module EventPipelineService.

Definition update (event : Event.t) : Task unit :=
  let submission_id :=
    Metadata.submission_id (Payload.metadata (Event.data event)) in
  SubmissionModel.updateOne submission_id
    (Submission.set_status (Event.message event)) ;;
  subDoc <- SubmissionModel.findOne submission_id ;;
  match subDoc with
  | None => ret tt
  | Some subDoc =>
      match Submission.attachments subDoc with
      | None => ret tt
      | Some ref =>
          AttachmentModel.updateOne ref
            (Payload.attachments (Event.data event))
      end
  end.

End EventPipelineService.

(** What the statements about the reconciler observe. *)

Definition target (event : Event.t) : string :=
  Metadata.submission_id (Payload.metadata (Event.data event)).

(** The submission that [update] writes and then reads back. *)
Definition addressed (event : Event.t) (w : World) : option Submission.t :=
  find (SubmissionModel.has_id (target event)) (submissions w).

Definition stored (ref : ObjectId) (w : World) : option (list Attachment.t) :=
  option_map AttachmentSet.attachments
             (find (AttachmentModel.has_oid ref) (attachment_sets w)).

(** The Submission [d] once [update] has written it at time [date]: the
    envelope's kind as its status, [date] as its [updatedAt]. *)
Definition restatus (event : Event.t) (date : N) (d : Submission.t)
  : Submission.t :=
  Submission.touch date (Submission.set_status (Event.message event) d).

(** The Attachment-set [d] once [update] has written it at time [date]: the
    envelope's list as its entries, [date] as its [updatedAt]. *)
Definition relist (event : Event.t) (date : N) (d : AttachmentSet.t)
  : AttachmentSet.t :=
  AttachmentSet.touch date
    (AttachmentSet.set_attachments (Payload.attachments (Event.data event)) d).

(* ================================================================== *)
(** ** Extraction stage (ocr/ocr.service.ts) *)

(** A call to an engine outside the process: it answers or fails after some
    milliseconds, or never does. *)
Inductive Timed (A : Type) : Type :=
| Responds (ms : N) (a : A)
| Fails (ms : N) (e : Error)
| Never.

Arguments Responds {A} ms a.
Arguments Fails {A} ms e.
Arguments Never {A}.

Definition delay {A} (d : N) (p : Timed A) : Timed A :=
  match p with
  | Responds ms a => Responds (d + ms) a
  | Fails ms e => Fails (d + ms) e
  | Never => Never
  end.

(** [const a = await p; k a] inside an async helper. *)
Definition andThen {A B} (p : Timed A) (k : A -> Timed B) : Timed B :=
  match p with
  | Responds ms a => delay ms (k a)
  | Fails ms e => Fails ms e
  | Never => Never
  end.

(** [await p] with nothing else going on. *)
Definition awaitTimed {A} (p : Timed A) : Settled A :=
  match p with
  | Responds _ a => Resolved a
  | Fails _ e => Rejected e
  | Never => Pending
  end.

(** [Promise.race([p, new Promise((_, reject) => setTimeout(() =>
    reject(err), budget))])]: [p] wins when it settles before the timer. *)
Definition raceTimeout {A} (p : Timed A) (budget : N) (err : Error) : Settled A :=
  match p with
  | Responds ms a => if (ms <? budget)%N then Resolved a else Rejected err
  | Fails ms e => if (ms <? budget)%N then Rejected e else Rejected err
  | Never => Rejected err
  end.

Definition bindS {A B} (p : Settled A) (k : A -> Settled B) : Settled B :=
  match p with
  | Resolved a => k a
  | Rejected e => Rejected e
  | Pending => Pending
  end.

Definition Buffer := string.

Module OcrService.
Section WithEngines.

(** The download of a URL and the two engines. *)
Variable axios_get : string -> Timed Buffer.
Variable Tesseract_recognize : Buffer -> Timed string.
Variable pdfParse : Buffer -> Timed string.

Definition _extractTextFromImage (imageUrl : string) : Timed string :=
  andThen (axios_get imageUrl) (fun buffer =>
  andThen (Tesseract_recognize buffer) (fun text =>
  Responds 0 (Js.trim text))).

Definition submissionTimeout : N := 60000.

Definition extractTextFromImage (imageUrl : string) : Settled string :=
  raceTimeout (_extractTextFromImage imageUrl) submissionTimeout
              (JsError "OCR Timeout").

Definition extractTextFromPdf (pdfUrl : string) : Settled string :=
  awaitTimed
    (andThen (axios_get pdfUrl) (fun buffer =>
     andThen (pdfParse buffer) (fun pdfData =>
     Responds 0 (Js.trim pdfData)))).

(** The callback that [processOcr] maps over the attachments.  It gives the
    attachment object as the callback leaves it (the callback assigns
    [att.text] in place) and the value the callback returns. *)
Definition processAttachment (att : Attachment.t)
  : Settled (Attachment.t * option Attachment.t) :=
  tryCatch
    (if Js.includes "image" (Attachment.content_type att) then
       bindS (extractTextFromImage (Attachment.url att)) (fun text =>
       let att' := Attachment.set_text att text in
       Resolved (att', Some (Attachment.set_text att' text)))
     else if Js.includes "pdf" (Attachment.content_type att) then
       bindS (extractTextFromPdf (Attachment.url att)) (fun text =>
       let att' := Attachment.set_text att text in
       Resolved (att', Some (Attachment.set_text att' text)))
     else
       Resolved (Attachment.set_text att EmptyString, None))
    (fun err => Resolved (att, Some (Attachment.set_text att EmptyString))).

Definition not_null {A} (r : option A) : bool :=
  match r with Some _ => true | None => false end.

Definition processOcr (message : Payload.t) : Task unit :=
  tryCatchT
    (results <- await (Promise_all
                         (map processAttachment (Payload.attachments message))) ;;
     (* the callbacks have written into the attachment objects of [message] *)
     let message := Payload.set_attachments message (map fst results) in
     let parsedData := filter not_null (map snd results) in
     let event :=
       Event.mk (Metadata.id (Payload.metadata message)) "ocr_completed"
                message in
     redis_set ("ocr:status:" ++ Event.id event) event (Some 3600%N) ;;
     publishMessage "event.pipeline" (PubEvent event) ;;
     publishMessage "classification.init" (PubPayload message))
    (fun error => throw (InternalServerErrorException "OCR processing failed")).

(** [att'] is the entry [att] annotated with the text extracted for it: the
    engine's text when the extraction of an image or a PDF succeeded, the
    empty string for any other content type. *)
Definition annotated (att att' : Attachment.t) : Prop :=
  Attachment.filename att' = Attachment.filename att /\
  Attachment.content_type att' = Attachment.content_type att /\
  Attachment.url att' = Attachment.url att /\
  Attachment.classification att' = Attachment.classification att /\
  Attachment.confidence att' = Attachment.confidence att /\
  if Js.includes "image" (Attachment.content_type att) then
    forall t, extractTextFromImage (Attachment.url att) = Resolved t ->
              Attachment.text att' = Some t
  else if Js.includes "pdf" (Attachment.content_type att) then
    forall t, extractTextFromPdf (Attachment.url att) = Resolved t ->
              Attachment.text att' = Some t
  else Attachment.text att' = Some EmptyString.

End WithEngines.
End OcrService.

(* ================================================================== *)
(** ** Classification stage (classification/classification.service.ts) *)

(** A number as [JSON.parse] gives it: finite, or, for a literal beyond the
    range of a double such as [1e999] or [-1e999], an infinity. *)
Inductive JsNumber : Type :=
| Finite (q : Q)
| Infinity (negative : bool).

(** A number member as [JSON.stringify] writes it and the next consumer
    reads it: a missing member is left out, an infinity is written [null]. *)
Definition onWire (n : option JsNumber) : option Q :=
  match n with
  | Some (Finite q) => Some q
  | Some (Infinity _) => None
  | None => None
  end.

(** The value [JSON.parse] gives, seen through the result type that [classify]
    declares, [{ type: string; confidence: number }]: either [null], on which
    reading a property throws, or a value whose [type] member is a string
    and whose [confidence] member is a number, when they are there. *)
Inductive Parsed : Type :=
| ParsedNull
| ParsedValue (type : option string) (confidence : option JsNumber).

Record GenResponse := mkGenResponse { response_text : option string }.

Module ClassificationService.

Definition backquote : ascii := ascii_of_nat 96.
Definition fence : string :=
  String backquote (String backquote (String backquote EmptyString)).

Definition isLetter (c : ascii) : bool :=
  let n := nat_of_ascii c in
  (Nat.leb 65 n && Nat.leb n 90) || (Nat.leb 97 n && Nat.leb n 122).

Definition isNewline (c : ascii) : bool := Nat.eqb (nat_of_ascii c) 10.

(** [s.replace(/```[a-z]*\n?/gi, "")].  [inTag] is set right after three
    backquotes have been dropped, while the letters that follow them and
    one line feed are dropped as well. *)
Fixpoint removeFences (inTag : bool) (s : string) : string :=
  match s with
  | EmptyString => EmptyString
  | String c rest =>
      if inTag && isLetter c then removeFences true rest
      else if inTag && isNewline c then removeFences false rest
      else
        match s with
        | String c1 (String c2 (String c3 rest3)) =>
            if Ascii.eqb c1 backquote && Ascii.eqb c2 backquote
               && Ascii.eqb c3 backquote
            then removeFences true rest3
            else String c (removeFences false rest)
        | _ => String c (removeFences false rest)
        end
  end.

(** [s.replace(/```$/, "")]: three backquotes at the very end are dropped. *)
Fixpoint removeFinalFence (s : string) : string :=
  match s with
  | EmptyString => EmptyString
  | String c rest =>
      if String.eqb s fence then EmptyString
      else String c (removeFinalFence rest)
  end.

Definition stripFences (output : string) : string :=
  let output := Js.trim output in
  if Js.startsWith fence output
  then Js.trim (removeFinalFence (removeFences false output))
  else output.

Definition nl : string := String (ascii_of_nat 10) EmptyString.
Definition dq : string := String (ascii_of_nat 34) EmptyString.

Definition prompt (text : string) : string :=
  nl ++ "        You are a document classifier." ++ nl
  ++ "        Categories: [" ++ dq ++ "invoice" ++ dq ++ ", "
  ++ dq ++ "receipt" ++ dq ++ ", " ++ dq ++ "contract" ++ dq ++ ", "
  ++ dq ++ "id_card" ++ dq ++ ", " ++ dq ++ "resume" ++ dq ++ "]." ++ nl
  ++ "        Respond ONLY with a JSON object { " ++ dq ++ "type" ++ dq ++ ": "
  ++ dq ++ "..." ++ dq ++ ", " ++ dq ++ "confidence" ++ dq ++ ": 0-1 }." ++ nl
  ++ nl ++ "        Document:" ++ nl
  ++ "        " ++ text ++ nl ++ "      ".

Definition fallback : Parsed :=
  ParsedValue (Some "unknown") (Some (Finite 0%Q)).

Section WithEngine.

(** helpers/genAi.ts, [generateContent], and [JSON.parse] ([None] when it
    throws a [SyntaxError]). *)
Variable generateContent : string -> Settled GenResponse.
Variable JSON_parse : string -> option Parsed.

Definition classify (text : string) : Settled Parsed :=
  tryCatch
    (bindS (generateContent (prompt text)) (fun response =>
     let output := Js.orElse (response_text response) "unknown" in
     let output := stripFences output in
     match JSON_parse output with
     | Some parsed => Resolved parsed
     | None => Rejected (JsError "Unexpected token")
     end))
    (fun err => Resolved fallback).

(** The callback that [processClassification] maps over the attachments:
    the file object as the callback leaves it, and the value it returns.
    The file objects leave the stage through [JSON.stringify] only (the
    cache entry and the published envelope): the entry is given as it is
    written there. *)
Definition classifyFile (file : Attachment.t)
  : Settled (Attachment.t * (Attachment.t * Parsed)) :=
  bindS (classify (Js.orElse (Attachment.text file) EmptyString))
    (fun classified =>
       match classified with
       | ParsedNull =>
           Rejected (TypeError "Cannot read properties of null")
       | ParsedValue type confidence =>
           let file :=
             Attachment.set_confidence
               (Attachment.set_classification file type)
               (onWire confidence) in
           Resolved (file, (file, classified))
       end).

(** The text sent to the engine for [file]: [file.text || ""]. *)
Definition asked (file : Attachment.t) : string :=
  Js.orElse (Attachment.text file) EmptyString.

(** The engine call for [text] errs, or its answer is not JSON once the
    fences are stripped. *)
Definition engine_failed (text : string) : bool :=
  match generateContent (prompt text) with
  | Resolved response =>
      match JSON_parse
              (stripFences (Js.orElse (response_text response) "unknown")) with
      | Some _ => false
      | None => true
      end
  | Rejected _ => true
  | Pending => false
  end.

(** The [confidence] member of the engine's own answer for [text], read
    off [JSON.parse] of the answer without its fences; [0] stands in when the
    call failed or the answer is not JSON. *)
Definition engine_confidence (text : string) : option JsNumber :=
  match generateContent (prompt text) with
  | Resolved response =>
      match JSON_parse
              (stripFences (Js.orElse (response_text response) "unknown")) with
      | Some (ParsedValue _ confidence) => confidence
      | Some ParsedNull => None
      | None => Some (Finite 0%Q)
      end
  | Rejected _ => Some (Finite 0%Q)
  | Pending => None
  end.

(** [classify] comes back with a value whose members can be read. *)
Definition classified_ok (text : string) : bool :=
  match classify text with
  | Resolved (ParsedValue _ _) => true
  | _ => false
  end.

Definition processClassification (message : Payload.t) : Task unit :=
  tryCatchT
    (results <- await (Promise_all
                         (map classifyFile (Payload.attachments message))) ;;
     let message := Payload.set_attachments message (map fst results) in
     let event :=
       Event.mk (Metadata.id (Payload.metadata message))
                "classification_completed" message in
     redis_set ("redis:status:" ++ Event.id event) event None ;;
     publishMessage "event.pipeline" (PubEvent event))
    (fun error =>
       throw (InternalServerErrorException "Classification processing failed")).

End WithEngine.

(** The entry that the fallback result leaves. *)
Definition markUnknown (file : Attachment.t) : Attachment.t :=
  Attachment.set_confidence
    (Attachment.set_classification file (Some "unknown")) (Some 0%Q).

End ClassificationService.

(** What the statements about the stages observe: the messages published on
    a topic, oldest first. *)
Definition published (topic : string) (w : World) : list Published :=
  map snd (filter (fun m => String.eqb (fst m) topic) (kafka w)).

(** The [text] members of the attachment list that a message carries. *)
Definition texts_of (m : Published) : list (option string) :=
  map Attachment.text
      (Payload.attachments
         (match m with PubEvent e => Event.data e | PubPayload p => p end)).

Definition in_unit_interval (c : Q) : Prop := (0 <= c)%Q /\ (c <= 1)%Q.

(* ================================================================== *)
(** ** Query interface (proxy/proxy.service.ts) *)

Module ProxyService.

(** A submission as [find().populate("attachments")] gives it: the reference
    is replaced by the document it names, [null] when there is none. *)
Record Populated := mkPopulated {
  submission : Submission.t;
  attachments : option AttachmentSet.t
}.

Definition populate (sets : list AttachmentSet.t) (s : Submission.t)
  : Populated :=
  mkPopulated s
    (match Submission.attachments s with
     | Some ref => find (AttachmentModel.has_oid ref) sets
     | None => None
     end).

Definition handle : Task (list Populated) :=
  tryCatchT
    (fun w => (w, Resolved (map (populate (attachment_sets w)) (submissions w))))
    (fun err => throw (InternalServerErrorException "Server error")).

End ProxyService.

(* ================================================================== *)
(** ** Mail parsing helpers (helpers/parser.ts) *)

Module Parser.

(** One attachment part of a parsed mail. *)
Record Part := mkPart {
  part_filename : option string;
  contentType   : string;
  content       : Buffer
}.

(** The members of mailparser's [ParsedMail] that the pipeline reads; a
    missing member, or [html: false], is [None]. *)
Record ParsedMail := mkParsedMail {
  subject     : option string;
  from_text   : option string;
  text        : option string;
  html        : option string;
  date        : option N;
  attachments : list Part
}.

(** [s.replace(/<[^>]+>/g, "")], computed from the right: for each suffix, its
    text with the tags removed, and the same for what follows its first [>]
    (when it has one).  A [<] opens a tag when the next character is not [>]
    and some [>] follows; the tag ends at the first [>]. *)
Fixpoint scanTags (s : string) : string * option string :=
  match s with
  | EmptyString => (EmptyString, None)
  | String c rest =>
      let (stripped, afterGt) := scanTags rest in
      let here :=
        if Ascii.eqb c "<" then
          match rest, afterGt with
          | String d _, Some tail =>
              if Ascii.eqb d ">" then String c stripped else tail
          | _, _ => String c stripped
          end
        else String c stripped in
      (here, if Ascii.eqb c ">" then Some stripped else afterGt)
  end.

Definition stripTags (s : string) : string := fst (scanTags s).

(** A string is truthy when it is there and not empty. *)
Definition truthy (a : option string) : option string :=
  match a with
  | Some (String c rest) => Some (String c rest)
  | _ => None
  end.

Definition extractBody (msg : ParsedMail) : string :=
  match truthy (text msg) with
  | Some t => Js.trim t
  | None =>
      match truthy (html msg) with
      | Some h => Js.trim (stripTags h)
      | None => EmptyString
      end
  end.

Section WithCloudinary.

(** [cloudinary.uploader.upload_stream({resource_type, public_id, ...})]
    fed with the buffer: the [secure_url] of the result, or the error. *)
Variable upload_stream : string -> string -> Buffer -> Settled string.

Definition decimal (n : N) : string := NilEmpty.string_of_uint (N.to_uint n).

(** The body of the loop over the parts. *)
Definition uploadPart (part : Part) : Task Attachment.t :=
  let filename := Js.orElse (part_filename part) "untitled" in
  let buffer := content part in
  let isImage := Js.includes "image" (contentType part) in
  let resourceType := if isImage then "image" else "raw" in
  stamp <- now ;;
  secure_url <- await (upload_stream resourceType
                         ("emails/" ++ decimal stamp ++ "-" ++ filename)
                         buffer) ;;
  ret (Attachment.mk (Some filename) (contentType part) secure_url
                     None None None).

Fixpoint uploadParts (parts : list Part) : Task (list Attachment.t) :=
  match parts with
  | [] => ret []
  | part :: rest =>
      att <- uploadPart part ;;
      atts <- uploadParts rest ;;
      ret (att :: atts)
  end.

Definition extractAttachments (msg : ParsedMail) : Task (list Attachment.t) :=
  uploadParts (attachments msg).

End WithCloudinary.
End Parser.

(* ================================================================== *)
(** ** Mailbox poller (lambda/lambda.service.ts) *)

Module LambdaService.
Section WithCloudinary.

Variable upload_stream : string -> string -> Buffer -> Settled string.

(** What [processMessages] does with one fetched, unseen message once
    [simpleParser] has parsed it; [randomId] is
    [crypto.randomBytes(16).toString('hex')]. *)
Definition processMessage (parsed : Parser.ParsedMail) (randomId : string)
  : Task unit :=
  fallbackDate <- now ;;
  atts <- Parser.extractAttachments upload_stream parsed ;;
  let ingestion :=
    Payload.mk
      (Metadata.mk (Js.orElse (Parser.subject parsed) "No Subject")
                   (Js.orElse (Parser.from_text parsed) "Unknown Sender")
                   (Parser.extractBody parsed)
                   (match Parser.date parsed with
                    | Some d => d
                    | None => fallbackDate
                    end)
                   randomId atts "imap done") in
  let event := Event.mk randomId "IMAP_DONE" ingestion in
  publishMessage "event.pipeline" (PubEvent event) ;;
  publishMessage "submission.found" (PubPayload ingestion) ;;
  redis_set ("redis:status:" ++ randomId) event None.

End WithCloudinary.
End LambdaService.

(* ================================================================== *)
(** ** Reconciler endpoint (event-pipeline/event-pipeline.controller.ts) *)

Module EventPipelineController.

(** How far a call of [EventPipelineService.update] has come: before its
    [submission.updateOne], before its [submission.findOne], before its
    [attachment.updateOne] on the reference it has found, or at its end. *)
Inductive Progress : Type :=
| Started
| StatusSet
| Found (ref : ObjectId)
| Finished.

(** An update that the handler has started. *)
Record Running := mkRunning {
  event    : Event.t;
  progress : Progress
}.

(** The next store call of a running update, up to its next [await]. *)
Definition advance (r : Running) (w : World) : World * Running :=
  let submission_id :=
    Metadata.submission_id (Payload.metadata (Event.data (event r))) in
  match progress r with
  | Started =>
      (fst (SubmissionModel.updateOne submission_id
              (Submission.set_status (Event.message (event r))) w),
       mkRunning (event r) StatusSet)
  | StatusSet =>
      match snd (SubmissionModel.findOne submission_id w) with
      | Resolved (Some subDoc) =>
          match Submission.attachments subDoc with
          | Some ref => (w, mkRunning (event r) (Found ref))
          | None => (w, mkRunning (event r) Finished)
          end
      | _ => (w, mkRunning (event r) Finished)
      end
  | Found ref =>
      (fst (AttachmentModel.updateOne ref
              (Payload.attachments (Event.data (event r))) w),
       mkRunning (event r) Finished)
  | Finished => (w, r)
  end.

(** The stores and the updates under way, oldest first. *)
Definition State : Type := World * list Running.

(** The handler calls [this.eventPipelineService.update(event)] and does not
    await it: it resolves with the update only started. *)
Definition update (event : Event.t) (st : State) : State * Settled unit :=
  ((fst st, snd st ++ [mkRunning event Started]), Resolved tt).

(** The update at position [i] makes its next store call. *)
Fixpoint step (i : nat) (jobs : list Running) (w : World)
  : World * list Running :=
  match jobs with
  | [] => (w, [])
  | r :: rest =>
      match i with
      | O => let (w', r') := advance r w in (w', r' :: rest)
      | S j => let (w', rest') := step j rest w in (w', r :: rest')
      end
  end.

(** The store calls happen in the order [schedule] gives. *)
Definition run (schedule : list nat) (st : State) : State :=
  fold_left (fun st i => step i (snd st) (fst st)) schedule st.

Definition finished (r : Running) : bool :=
  match progress r with Finished => true | _ => false end.

End EventPipelineController.


(** The store after [EventPipelineService.update] has run for the envelopes
    [events], one after the other, each run to its end before the next
    starts. *)
Definition reconcile (events : list Event.t) (w : World) : World :=
  fold_left (fun w event => fst (EventPipelineService.update event w))
            events w.

(** What identifies a Submission and links it. *)
Definition identity (d : Submission.t)
  : ObjectId * string * string * N * string * option ObjectId :=
  (Submission._id d, Submission.sender d, Submission.body d,
   Submission.timestamp d, Submission.id d, Submission.attachments d).

(** The cache entry under [key]. *)
Definition cached (key : string) (w : World) : option RedisEntry :=
  find (fun e => String.eqb (redis_key e) key) (redis w).

(** Every character of [s] satisfies [p]. *)
Fixpoint every (p : ascii -> bool) (s : string) : bool :=
  match s with
  | EmptyString => true
  | String c rest => p c && every p rest
  end.

Definition notBackquote (c : ascii) : bool :=
  negb (Ascii.eqb c ClassificationService.backquote).

Definition notGt (c : ascii) : bool := negb (Ascii.eqb c ">").

(** The upload that [extractAttachments] starts for [part] at time [stamp]. *)
Definition uploadOf (upload_stream : string -> string -> Buffer -> Settled string)
    (stamp : N) (part : Parser.Part) : Settled string :=
  upload_stream
    (if Js.includes "image" (Parser.contentType part) then "image" else "raw")
    ("emails/" ++ Parser.decimal stamp ++ "-"
     ++ Js.orElse (Parser.part_filename part) "untitled")%string
    (Parser.content part).

(** The entry that [extractAttachments] makes of [part] once it is uploaded
    to [secure_url]. *)
Definition entryOf (part : Parser.Part) (secure_url : string) : Attachment.t :=
  Attachment.mk (Some (Js.orElse (Parser.part_filename part) "untitled"))
                (Parser.contentType part) secure_url None None None.

(** The entries that [extractAttachments] makes when the parts are uploaded
    to [urls]. *)
Definition entriesOf (parts : list Parser.Part) (urls : list string)
  : list Attachment.t :=
  map (fun pu => entryOf (fst pu) (snd pu)) (combine parts urls).

(** The ingestion object that the poller builds for a parsed mail. *)
Definition polled (parsed : Parser.ParsedMail) (randomId : string)
    (fallbackDate : N) (atts : list Attachment.t) : Payload.t :=
  Payload.mk
    (Metadata.mk (Js.orElse (Parser.subject parsed) "No Subject")
                 (Js.orElse (Parser.from_text parsed) "Unknown Sender")
                 (Parser.extractBody parsed)
                 (match Parser.date parsed with
                  | Some d => d
                  | None => fallbackDate
                  end)
                 randomId atts "imap done").

(** The submission [i] is in the store and refers to an Attachment-set that
    is there. *)
Definition linked (i : string) (ref : ObjectId) (w : World) : Prop :=
  exists sub old,
    find (SubmissionModel.has_id i) (submissions w) = Some sub /\
    Submission.attachments sub = Some ref /\
    stored ref w = Some old.

(* ================================================================== *)
(** ** Mailbox poller: the loop over the fetched messages *)

Module Poll.

(** A message as [client.fetch] yields it: its UID, whether it carries the
    [Seen] flag, what [simpleParser] makes of its source, and the id that
    [crypto.randomBytes] draws for it. *)
Record Fetched := mkFetched {
  uid      : N;
  seen     : bool;
  source   : Settled Parser.ParsedMail;
  randomId : string
}.

Section WithCloudinary.

Variable upload_stream : string -> string -> Buffer -> Settled string.

(** The body of the loop of [processMessages] with its [try]/[catch]: the
    UID when the message was announced, nothing when it was skipped or its
    processing threw. *)
Definition handleFetched (msg : Fetched) : Task (option N) :=
  tryCatchT
    (if seen msg then ret None
     else
       parsed <- await (source msg) ;;
       LambdaService.processMessage upload_stream parsed (randomId msg) ;;
       ret (Some (uid msg)))
    (fun msgError => ret None).

(** The loop, with its two accumulators. *)
Fixpoint fetchLoop (msgs : list Fetched) (processedCount : nat)
    (processedUids : list N) : Task (nat * list N) :=
  match msgs with
  | [] => ret (processedCount, processedUids)
  | msg :: rest =>
      done <- handleFetched msg ;;
      match done with
      | Some u => fetchLoop rest (S processedCount) (processedUids ++ [u])
      | None => fetchLoop rest processedCount processedUids
      end
  end.

(** [processMessages] up to the marking of the messages: the count it
    returns and the UIDs it hands to [markMessagesAsSeen]. *)
Definition processMessages (msgs : list Fetched) : Task (nat * list N) :=
  fetchLoop msgs 0%nat [].

(** The message is announced: it is unseen, it parses, and every upload of
    its parts succeeds. *)
Definition announced (stamp : N) (msg : Fetched) : bool :=
  negb (seen msg) &&
  match source msg with
  | Resolved parsed =>
      forallb (fun part =>
                 match uploadOf upload_stream stamp part with
                 | Resolved _ => true
                 | _ => false
                 end)
              (Parser.attachments parsed)
  | _ => false
  end.

(** Nothing about the message stays pending. *)
Definition settles (stamp : N) (msg : Fetched) : bool :=
  match source msg with
  | Resolved parsed =>
      forallb (fun part =>
                 match uploadOf upload_stream stamp part with
                 | Pending => false
                 | _ => true
                 end)
              (Parser.attachments parsed)
  | Rejected _ => true
  | Pending => false
  end.

End WithCloudinary.
End Poll.

(* ================================================================== *)
(** ** Kafka clients (lib/kafka.ts) *)

Module KafkaService.

(** A producer or consumer object of the client library. *)
Definition Client := N.

(** The service object: its [producer] field, its [consumers] map, and, of
    the world outside, how many clients it has made and which of them are
    connected. *)
Record t := mk {
  producer  : option Client;
  consumers : list (string * Client);
  made      : N;
  connected : list Client
}.

Definition get (groupId : string) (m : list (string * Client)) : option Client :=
  option_map snd (find (fun e => String.eqb (fst e) groupId) m).

Section WithBroker.

(** Whether [connect()] of a client succeeds. *)
Variable reachable : Client -> bool.

Definition getProducer (st : t) : t * Settled Client :=
  match producer st with
  | Some p => (st, Resolved p)
  | None =>
      let p := made st in
      if reachable p
      then (mk (Some p) (consumers st) (N.succ (made st)) (p :: connected st),
            Resolved p)
      else (mk (Some p) (consumers st) (N.succ (made st)) (connected st),
            Rejected (JsError "Connection error"))
  end.

Definition createConsumer (groupId : string) (st : t) : t * Settled Client :=
  match get groupId (consumers st) with
  | Some c => (st, Resolved c)
  | None =>
      let c := made st in
      if reachable c
      then (mk (producer st) ((groupId, c) :: consumers st)
               (N.succ (made st)) (c :: connected st),
            Resolved c)
      else (mk (producer st) (consumers st) (N.succ (made st)) (connected st),
            Rejected (JsError "Connection error"))
  end.

End WithBroker.

(** Every connected client is one the service has made. *)
Definition wellFormed (st : t) : Prop :=
  Forall (fun c => (c < made st)%N) (connected st).

End KafkaService.

(* ================================================================== *)
(** ** Sample data *)

Module Samples.

Definition emptyWorld : World := mkWorld [] [] 1%N 1000%N [] [].

Definition invoicePng : Attachment.t :=
  Attachment.mk (Some "invoice.png") "image/png" "https://files/invoice.png"
                None None None.

Definition contractPdf : Attachment.t :=
  Attachment.mk (Some "contract.pdf") "application/pdf"
                "https://files/contract.pdf" None None None.

Definition notesTxt : Attachment.t :=
  Attachment.mk (Some "notes.txt") "text/plain" "https://files/notes.txt"
                None None None.

Definition mail (atts : list Attachment.t) : Payload.t :=
  Payload.mk (Metadata.mk "Invoice" "a@b.com" "see attached" 900%N "id-1"
                          atts "id-1").

(** A store that holds submission [id-1], linked to attachment set 2. *)
Definition linkedWorld : World :=
  mkWorld [Submission.mk 1%N "a@b.com" "see attached" 1000%N "id-1"
                         (Some 2%N) "ingestion done" 1000%N 1000%N]
          [AttachmentSet.mk 2%N [invoicePng] 1000%N 1000%N]
          3%N 2000%N [] [].

(** A store that holds submission [id-1] without an attachment set. *)
Definition bareWorld : World :=
  mkWorld [Submission.mk 1%N "a@b.com" "see attached" 1000%N "id-1"
                         None "ingestion in progress" 1000%N 1000%N]
          [] 2%N 2000%N [] [].

(** Engines: the download answers in 20 ms with the URL as the bytes; the
    OCR engine answers in 500 ms; the PDF engine never answers for the
    contract and fails at once for anything else. *)
Definition axios_get (u : string) : Timed Buffer := Responds 20%N u.

Definition Tesseract_recognize (b : Buffer) : Timed string :=
  Responds 500%N "  INVOICE 42 ".

Definition slowTesseract (b : Buffer) : Timed string :=
  Responds 90000%N "INVOICE 42".

Definition brokenTesseract (b : Buffer) : Timed string :=
  Fails 5%N (JsError "Error attempting to read image.").

Definition pdfParse (b : Buffer) : Timed string :=
  if String.eqb b "https://files/contract.pdf" then Never
  else Fails 1%N (JsError "Invalid PDF structure").

Definition goodPdfParse (b : Buffer) : Timed string :=
  Responds 40%N "CONTRACT between A and B".

(** A classification engine that answers with a fenced block, and a
    [JSON.parse] that knows two texts. *)
Definition invoiceJson : string :=
  let dq := ClassificationService.dq in
  "{" ++ dq ++ "type" ++ dq ++ ":" ++ dq ++ "invoice" ++ dq ++ ","
  ++ dq ++ "confidence" ++ dq ++ ":5}".

Definition fencedAnswer : string :=
  ClassificationService.fence ++ "json" ++ ClassificationService.nl
  ++ invoiceJson ++ ClassificationService.nl ++ ClassificationService.fence.

Definition generateContent (prompt : string) : Settled GenResponse :=
  if Js.includes "INVOICE" prompt
  then Resolved (mkGenResponse (Some fencedAnswer))
  else if Js.includes "CONTRACT" prompt
  then Resolved (mkGenResponse (Some "I think this is a contract."))
  else Rejected (JsError "503 Service Unavailable").

Definition JSON_parse (s : string) : option Parsed :=
  if String.eqb s invoiceJson
  then Some (ParsedValue (Some "invoice") (Some (Finite 5%Q)))
  else if String.eqb s "null" then Some ParsedNull
  else None.

End Samples.

(** More sample data: mails, uploads and two more engines. *)
Module MoreSamples.

Definition scanPart : Parser.Part :=
  Parser.mkPart (Some "scan.png") "image/png" "PNGDATA".

Definition unnamedPart : Parser.Part :=
  Parser.mkPart None "application/pdf" "PDFDATA".

Definition brokenPart : Parser.Part :=
  Parser.mkPart (Some "broken.bin") "application/octet-stream" EmptyString.

(** A mail with an HTML body only, and one without any body. *)
Definition htmlMail : Parser.ParsedMail :=
  Parser.mkParsedMail (Some "Invoice") (Some "a@b.com") None
                      (Some "<p>see <b>attached</b></p>") (Some 900%N)
                      [scanPart; unnamedPart].

Definition bareMail : Parser.ParsedMail :=
  Parser.mkParsedMail None None None None None [scanPart].

Definition brokenMail : Parser.ParsedMail :=
  Parser.mkParsedMail (Some "Files") (Some "a@b.com") (Some "three files")
                      None None [scanPart; brokenPart; unnamedPart].

(** The upload answers with a URL made of the public id; an empty buffer is
    refused. *)
Definition upload_stream (resourceType publicId : string) (buffer : Buffer)
  : Settled string :=
  match buffer with
  | EmptyString => Rejected (JsError "Empty file")
  | _ => Resolved ("https://cdn/" ++ resourceType ++ "/" ++ publicId)%string
  end.

(** A classification engine that answers [null], and one that never
    answers. *)
Definition nullEngine (prompt : string) : Settled GenResponse :=
  Resolved (mkGenResponse (Some "null")).

Definition silentEngine (prompt : string) : Settled GenResponse := Pending.

(** A classification engine that answers [null] for an invoice and is out of
    service for anything else. *)
Definition nullForInvoice (prompt : string) : Settled GenResponse :=
  if Js.includes "INVOICE" prompt
  then Resolved (mkGenResponse (Some "null"))
  else Rejected (JsError "503 Service Unavailable").

(** A classification engine whose answer gives a confidence beyond the range
    of a double, and the [JSON.parse] that reads it. *)
Definition hugeJson : string :=
  let dq := ClassificationService.dq in
  "{" ++ dq ++ "type" ++ dq ++ ":" ++ dq ++ "invoice" ++ dq ++ ","
  ++ dq ++ "confidence" ++ dq ++ ":1e999}".

Definition hugeEngine (prompt : string) : Settled GenResponse :=
  Resolved (mkGenResponse (Some hugeJson)).

Definition hugeParse (s : string) : option Parsed :=
  if String.eqb s hugeJson
  then Some (ParsedValue (Some "invoice") (Some (Infinity false)))
  else None.

(** A store with two submissions, the second without attachments. *)
Definition twoWorld : World :=
  mkWorld [Submission.mk 1%N "a@b.com" "see attached" 1000%N "id-1"
                         (Some 2%N) "classification_completed" 1000%N 1900%N;
           Submission.mk 3%N "c@d.com" "hello" 1500%N "id-2"
                         None "ingestion in progress" 1500%N 1500%N]
          [AttachmentSet.mk 2%N [Samples.invoicePng] 1000%N 1900%N]
          4%N 2000%N [] [].

Definition envelope (kind : string) (atts : list Attachment.t) : Event.t :=
  Event.mk "id-1" kind (Samples.mail atts).

End MoreSamples.

(* ================================================================== *)
(** * Properties *)

(** ** Collections *)

Section UpdateFirst.
Context {A : Type} (p : A -> bool) (f : A -> A).

Lemma update_first_miss (l : list A) :
  find p l = None -> update_first p f l = l.
Proof.
  induction l as [|x l IH]; simpl; [reflexivity|].
  destruct (p x); [discriminate|].
  intros H. now rewrite IH.
Qed.

Lemma update_first_length (l : list A) :
  length (update_first p f l) = length l.
Proof.
  induction l as [|x l IH]; simpl; [reflexivity|].
  destruct (p x); simpl; congruence.
Qed.

(** Where the first match sits, and what the update does there. *)
Lemma update_first_split (l : list A) (x : A) :
  find p l = Some x ->
  exists pre post,
    l = pre ++ x :: post /\
    update_first p f l = pre ++ f x :: post /\
    forallb (fun y => negb (p y)) pre = true.
Proof.
  induction l as [|y l IH]; simpl; [discriminate|].
  destruct (p y) eqn:Hy.
  - intros [= ->]. exists [], l. auto.
  - intros H. destruct (IH H) as (pre & post & -> & Hu & Hpre).
    exists (y :: pre), post. simpl. rewrite Hu, Hy, Hpre. auto.
Qed.

Hypothesis key_kept : forall x, p (f x) = p x.

Lemma find_update_first (l : list A) :
  find p (update_first p f l) = option_map f (find p l).
Proof.
  induction l as [|x l IH]; simpl; [reflexivity|].
  destruct (p x) eqn:Hx; simpl.
  - now rewrite key_kept, Hx.
  - now rewrite Hx.
Qed.

Lemma filter_update_first_length (l : list A) :
  length (filter p (update_first p f l)) = length (filter p l).
Proof.
  induction l as [|x l IH]; simpl; [reflexivity|].
  destruct (p x) eqn:Hx; simpl.
  - now rewrite key_kept, Hx.
  - now rewrite Hx.
Qed.

(** A second update of the first match overrides the first one when the
    later value does not depend on the earlier. *)
Lemma update_first_absorb (g : A -> A) (l : list A) :
  (forall x, g (f x) = g x) ->
  update_first p g (update_first p f l) = update_first p g l.
Proof.
  intros Hg. induction l as [|x l IH]; simpl; [reflexivity|].
  destruct (p x) eqn:Hx; simpl.
  - now rewrite key_kept, Hx, Hg.
  - now rewrite Hx, IH.
Qed.
End UpdateFirst.

Lemma World_eta (w : World) :
  mkWorld (submissions w) (attachment_sets w) (next_oid w) (clock w)
          (kafka w) (redis w) = w.
Proof. now destruct w. Qed.

(* ------------------------------------------------------------------ *)
(** ** Status reconciler *)

Section Reconciler.
Import EventPipelineService.

(** [update] always completes, and it moves the stores as follows. *)
Lemma update_run (event : Event.t) (w : World) :
  update event w =
  (mkWorld
     (update_first (SubmissionModel.has_id (target event))
                   (restatus event (clock w))
                   (submissions w))
     (match addressed event w with
      | Some sub =>
          match Submission.attachments sub with
          | Some ref =>
              update_first (AttachmentModel.has_oid ref)
                (relist event (clock w))
                (attachment_sets w)
          | None => attachment_sets w
          end
      | None => attachment_sets w
      end)
     (next_oid w) (clock w) (kafka w) (redis w),
   Resolved tt).
Proof.
  unfold update, addressed, target, bind, SubmissionModel.updateOne,
    SubmissionModel.findOne, AttachmentModel.updateOne, ret; simpl.
  rewrite find_update_first by reflexivity.
  destruct (find _ (submissions w)) as [sub|]; simpl; [|reflexivity].
  destruct (Submission.attachments sub); reflexivity.
Qed.

(** C4. An envelope whose submission id matches no stored Submission is a
    silent no-op: [update] resolves, and the store, the channel log and the
    cache are exactly what they were, so no Submission and no
    Attachment-set record is created. *)
Theorem update_unknown_submission_noop (event : Event.t) (w : World) :
  addressed event w = None ->
  update event w = (w, Resolved tt).
Proof.
  intros Hmiss. rewrite update_run, Hmiss.
  rewrite update_first_miss by exact Hmiss.
  now rewrite World_eta.
Qed.

(** C10, as the code has it.  When the addressed Submission has a null
    attachments reference, [update] resolves after overwriting that
    Submission's status with the envelope's kind and, as the store does on
    every update of a schema with [timestamps: true], its [updatedAt] with
    the time of the call: the Submission keeps its place in the collection
    and every other field ([_id], sender, body, timestamp, id, the null
    reference, [createdAt]), every other Submission is untouched, and the
    Attachment-set collection, like the rest of the world, is unchanged. *)
Theorem update_null_reference_status_and_stamp
    (event : Event.t) (w : World) (sub : Submission.t) :
  addressed event w = Some sub ->
  Submission.attachments sub = None ->
  exists w' pre post sub',
    update event w = (w', Resolved tt) /\
    submissions w = pre ++ sub :: post /\
    submissions w' = pre ++ sub' :: post /\
    addressed event w' = Some sub' /\
    Submission.status sub' = Event.message event /\
    Submission.updatedAt sub' = clock w /\
    Submission._id sub' = Submission._id sub /\
    Submission.sender sub' = Submission.sender sub /\
    Submission.body sub' = Submission.body sub /\
    Submission.timestamp sub' = Submission.timestamp sub /\
    Submission.id sub' = Submission.id sub /\
    Submission.attachments sub' = None /\
    Submission.createdAt sub' = Submission.createdAt sub /\
    attachment_sets w' = attachment_sets w /\
    next_oid w' = next_oid w /\ clock w' = clock w /\
    kafka w' = kafka w /\ redis w' = redis w.
Proof.
  intros Hsub Hnull.
  destruct (update_first_split (SubmissionModel.has_id (target event))
              (restatus event (clock w)) _ _ Hsub)
    as (pre & post & Hl & Hu & _).
  eexists _, pre, post, (restatus event (clock w) sub).
  rewrite update_run, Hsub, Hnull.
  split; [reflexivity|]. simpl.
  split; [exact Hl|]. split; [exact Hu|].
  split.
  { unfold addressed; simpl.
    rewrite find_update_first by reflexivity.
    unfold addressed in Hsub. now rewrite Hsub. }
  repeat split; assumption.
Qed.

(** The second of two envelopes for the same submission decides the whole
    outcome. *)
Lemma update_absorbs (eventA eventB : Event.t) (w : World) :
  target eventA = target eventB ->
  update eventB (fst (update eventA w)) = update eventB w.
Proof.
  intros Ht. rewrite !update_run. cbn [fst].
  unfold addressed; cbn [submissions attachment_sets next_oid clock kafka redis].
  rewrite Ht.
  rewrite find_update_first by reflexivity.
  rewrite update_first_absorb by reflexivity.
  destruct (find _ (submissions w)) as [sub|]; cbn [option_map]; [|reflexivity].
  change (Submission.attachments (restatus eventA (clock w) sub))
    with (Submission.attachments sub).
  destruct (Submission.attachments sub) as [ref|]; [|reflexivity].
  rewrite update_first_absorb by reflexivity.
  reflexivity.
Qed.

(** Reconciling one envelope for a linked submission stores its list. *)
Lemma update_stores_payload
    (event : Event.t) (w : World) (sub : Submission.t) (ref : ObjectId)
    (old : list Attachment.t) :
  addressed event w = Some sub ->
  Submission.attachments sub = Some ref ->
  stored ref w = Some old ->
  stored ref (fst (update event w))
  = Some (Payload.attachments (Event.data event)).
Proof.
  intros Hev Href Hold. rewrite update_run, Hev, Href. unfold stored in *. simpl.
  rewrite find_update_first by reflexivity.
  destruct (find _ (attachment_sets w)); [reflexivity|discriminate].
Qed.

(** C2. Full replace: for a submission linked to a stored Attachment-set,
    reconciling an envelope that carries attachment list A and then one
    that carries B (same submission id) leaves the stored entries equal to
    B; nothing of A remains. *)
Theorem update_full_replace
    (eventA eventB : Event.t) (w : World) (sub : Submission.t)
    (ref : ObjectId) (old : list Attachment.t) :
  target eventA = target eventB ->
  addressed eventA w = Some sub ->
  Submission.attachments sub = Some ref ->
  stored ref w = Some old ->
  let wA := fst (update eventA w) in
  let wB := fst (update eventB wA) in
  snd (update eventA w) = Resolved tt /\
  snd (update eventB wA) = Resolved tt /\
  stored ref wA = Some (Payload.attachments (Event.data eventA)) /\
  stored ref wB = Some (Payload.attachments (Event.data eventB)).
Proof.
  intros Ht Hsub Href Hold wA wB.
  assert (Hone : forall ev, addressed ev w = Some sub ->
            stored ref (fst (update ev w))
            = Some (Payload.attachments (Event.data ev)))
    by (intros ev Hev; eapply update_stores_payload; eassumption).
  assert (Hres : forall ev w0, snd (update ev w0) = Resolved tt)
    by (intros; now rewrite update_run).
  subst wA wB. repeat split; try apply Hres.
  - now apply Hone.
  - rewrite update_absorbs by exact Ht. apply Hone.
    unfold addressed in *. now rewrite <- Ht.
Qed.

End Reconciler.

(* ------------------------------------------------------------------ *)
(** ** Ingestion stage *)

Section Ingestion.
Import IngestionService.

Lemma valid_event_inv (message : Payload.t) :
  valid_event message = true ->
  let md := Payload.metadata message in
  required (Metadata.sender md) = true /\
  required (Metadata.body md) = true /\
  required (Metadata.id md) = true /\
  forallb AttachmentModel.entry_valid (Metadata.attachments md) = true.
Proof.
  unfold valid_event. rewrite !andb_true_iff. tauto.
Qed.

(** A valid event is ingested to the end; the stores move as follows. *)
Lemma ingestion_run (message : Payload.t) (w : World) :
  valid_event message = true ->
  let md := Payload.metadata message in
  let w' := fst (ingestion message w) in
  snd (ingestion message w) = Resolved tt /\
  submissions w' =
    match Metadata.attachments md with
    | [] => submissions w ++ [created message w]
    | _ :: _ =>
        update_first (SubmissionModel.has_id (Metadata.id md))
          (linkedTo (N.succ (next_oid w)) (clock w))
          (submissions w ++ [created message w])
    end /\
  attachment_sets w' =
    match Metadata.attachments md with
    | [] => attachment_sets w
    | _ :: _ =>
        attachment_sets w
        ++ [AttachmentSet.mk (N.succ (next_oid w)) (Metadata.attachments md)
                             (clock w) (clock w)]
    end.
Proof.
  intros Hv. destruct (valid_event_inv _ Hv) as (Hs & Hb & Hi & Ha).
  unfold ingestion, bind, SubmissionModel.create, created.
  cbv zeta. rewrite Hs, Hb, Hi. cbn [negb required].
  destruct (Metadata.attachments (Payload.metadata message)) as [|a l] eqn:Hl.
  - repeat split.
  - unfold AttachmentModel.create, bind.
    cbn [submissions attachment_sets next_oid clock kafka redis].
    rewrite Ha. repeat split.
Qed.

(** Each successful ingestion adds one record with the event's id. *)
Lemma ingestion_step (message : Payload.t) (w : World) :
  valid_event message = true ->
  let md := Payload.metadata message in
  let w' := fst (ingestion message w) in
  snd (ingestion message w) = Resolved tt /\
  count_id (Metadata.id md) w' = S (count_id (Metadata.id md) w) /\
  length (submissions w') = S (length (submissions w)) /\
  length (attachment_sets w') =
    (match Metadata.attachments md with [] => 0 | _ :: _ => 1 end
     + length (attachment_sets w))%nat.
Proof.
  intros Hv md w'.
  destruct (ingestion_run message w Hv) as (Hr & Hsub & Hatt).
  fold md w' in Hsub, Hatt.
  assert (Hnew : forall l,
            length (filter (SubmissionModel.has_id (Metadata.id md))
                           (l ++ [created message w]))
            = S (length (filter (SubmissionModel.has_id (Metadata.id md)) l))).
  { intros l. rewrite filter_app, length_app. simpl.
    unfold SubmissionModel.has_id at 2. simpl. fold md.
    rewrite String.eqb_refl. simpl. lia. }
  split; [exact Hr|]. unfold count_id. rewrite Hsub, Hatt.
  destruct (Metadata.attachments md).
  - rewrite Hnew, length_app. simpl. repeat split; lia.
  - rewrite filter_update_first_length by reflexivity.
    rewrite update_first_length, Hnew, !length_app. simpl. repeat split; lia.
Qed.

(** With a non-empty attachment list and an identifier that no stored
    Submission carries yet, the created Submission ends linked to the new
    Attachment-set with the status [ingestion done]. *)
Lemma ingestion_fresh_nonempty_done (message : Payload.t) (w : World) :
  valid_event message = true ->
  Metadata.attachments (Payload.metadata message) <> [] ->
  count_id (Metadata.id (Payload.metadata message)) w = 0%nat ->
  submissions (fst (ingestion message w)) =
    submissions w
    ++ [Submission.set_attachments_status (N.succ (next_oid w))
          "ingestion done" (created message w)].
Proof.
  intros Hv Hne Hfresh.
  destruct (ingestion_run message w Hv) as (_ & Hsub & _).
  cbv zeta in Hsub. rewrite Hsub. clear Hsub.
  destruct (Metadata.attachments (Payload.metadata message)) as [|a l];
    [contradiction|].
  unfold count_id in Hfresh. apply length_zero_iff_nil in Hfresh.
  induction (submissions w) as [|d ds IH]; simpl.
  - unfold SubmissionModel.has_id at 1. simpl. now rewrite String.eqb_refl.
  - simpl in Hfresh. destruct (SubmissionModel.has_id _ d); [discriminate|].
    now rewrite IH.
Qed.

(** C1 (as stated) fails: on an empty store, ingesting the same event twice
    leaves two Submission records with its id, and two Attachment-sets. *)
Lemma ingestion_twice_duplicates :
  let message := Samples.mail [Samples.invoicePng] in
  let w2 := fst (ingestion message (fst (ingestion message Samples.emptyWorld))) in
  valid_event message = true /\
  count_id "id-1" w2 = 2%nat /\
  length (attachment_sets w2) = 2%nat /\
  ~ (count_id "id-1" w2 = 1%nat /\ (length (attachment_sets w2) <= 1)%nat).
Proof.
  vm_compute. repeat split. intros [H _]. discriminate H.
Qed.

(** C1 (amended). Ingestion does not look the identifier up: every
    invocation on a valid event completes and inserts a new Submission record
    carrying the event's id (and a new Attachment-set when the attachment
    list is not empty), so two invocations with the same event leave two
    more Submission records with that id than before. *)
Theorem ingestion_twice_two_submissions (message : Payload.t) (w : World) :
  valid_event message = true ->
  let md := Payload.metadata message in
  let w1 := fst (ingestion message w) in
  let w2 := fst (ingestion message w1) in
  snd (ingestion message w) = Resolved tt /\
  snd (ingestion message w1) = Resolved tt /\
  count_id (Metadata.id md) w1 = (1 + count_id (Metadata.id md) w)%nat /\
  count_id (Metadata.id md) w2 = (2 + count_id (Metadata.id md) w)%nat /\
  length (attachment_sets w2) =
    (match Metadata.attachments md with [] => 0 | _ :: _ => 2 end
     + length (attachment_sets w))%nat.
Proof.
  intros Hv md w1 w2.
  destruct (ingestion_step message w Hv) as (R1 & C1 & _ & A1).
  destruct (ingestion_step message w1 Hv) as (R2 & C2 & _ & A2).
  fold md w1 in C1, A1. fold md w2 in C2, A2. fold w1 in C2, A2.
  repeat split; try assumption.
  - lia.
  - rewrite A2, A1. destruct (Metadata.attachments md); lia.
Qed.

Lemma ingestion_twice_two_submissions_witness :
  let message := Samples.mail [Samples.invoicePng] in
  let w1 := fst (ingestion message Samples.emptyWorld) in
  count_id "id-1" (fst (ingestion message w1)) = 2%nat.
Proof.
  intros message w1.
  exact (proj1 (proj2 (proj2 (proj2
           (ingestion_twice_two_submissions message Samples.emptyWorld
              eq_refl))))).
Defined.

(** C6. With an empty attachment list the Submission that ingestion creates
    carries the status [ingestion in progress] when the operation ends: no
    write advances it, no other record changes, and no Attachment-set is
    created, although the completion event is published. *)
Theorem ingestion_empty_attachments_status (message : Payload.t) (w : World) :
  valid_event message = true ->
  Metadata.attachments (Payload.metadata message) = [] ->
  let w' := fst (ingestion message w) in
  snd (ingestion message w) = Resolved tt /\
  submissions w' = submissions w ++ [created message w] /\
  Submission.status (created message w) = "ingestion in progress" /\
  Submission.status (created message w) <> "ingestion done" /\
  attachment_sets w' = attachment_sets w.
Proof.
  intros Hv He w'.
  destruct (ingestion_run message w Hv) as (Hr & Hsub & Hatt).
  fold w' in Hsub, Hatt. rewrite He in Hsub, Hatt.
  repeat split; try assumption. discriminate.
Qed.

Lemma ingestion_empty_attachments_status_witness :
  let w' := fst (ingestion (Samples.mail []) Samples.emptyWorld) in
  map Submission.status (submissions w') = ["ingestion in progress"].
Proof.
  intros w'.
  destruct (ingestion_empty_attachments_status (Samples.mail [])
              Samples.emptyWorld eq_refl eq_refl) as (_ & Hs & _).
  fold w' in Hs. rewrite Hs. reflexivity.
Defined.

End Ingestion.

(* ------------------------------------------------------------------ *)
(** ** Promises *)

Lemma Promise_all_map {A B} (f : A -> Settled B) (l : list A) :
  Forall (fun x => exists b, f x = Resolved b) l ->
  exists out,
    Promise_all (map f l) = Resolved out /\
    Forall2 (fun x b => f x = Resolved b) l out.
Proof.
  induction 1 as [|x l [b Hb] _ (out & Hall & Hout)]; simpl.
  - exists []. split; [reflexivity|constructor].
  - exists (b :: out). rewrite Hb, Hall. split; [reflexivity|].
    constructor; assumption.
Qed.

Lemma Promise_all_pending {A} (ps : list (Settled A)) :
  In Pending ps -> Forall (fun p => forall e, p <> Rejected e) ps ->
  Promise_all ps = Pending.
Proof.
  induction ps as [|p ps IH]; simpl; [contradiction|].
  intros Hin Hrej. inversion Hrej as [|? ? Hp Hps]; subst.
  destruct Hin as [->|Hin].
  - destruct (Promise_all ps) as [l|e|] eqn:Hall; try reflexivity.
    exfalso. clear IH Hrej Hp. revert e Hall.
    induction ps as [|q ps IHps]; simpl; [discriminate|].
    inversion Hps as [|? ? Hq Hqs]; subst. intros e.
    destruct q as [a|e'|]; [| now destruct (Hq e') |];
      destruct (Promise_all ps) eqn:Hps'; try discriminate;
      intros _; eapply IHps; eauto.
  - rewrite (IH Hin Hps).
    destruct p as [a|e|]; [reflexivity| now destruct (Hp e) |reflexivity].
Qed.

(* ------------------------------------------------------------------ *)
(** ** Extraction stage *)

Section Extraction.
Import OcrService.

Variable axios_get : string -> Timed Buffer.
Variable Tesseract_recognize : Buffer -> Timed string.
Variable pdfParse : Buffer -> Timed string.

Local Abbreviation extractTextFromImage :=
  (extractTextFromImage axios_get Tesseract_recognize).
Local Abbreviation extractTextFromPdf := (extractTextFromPdf axios_get pdfParse).
Local Abbreviation processAttachment :=
  (processAttachment axios_get Tesseract_recognize pdfParse).
Local Abbreviation processOcr := (processOcr axios_get Tesseract_recognize pdfParse).
Local Abbreviation annotated := (annotated axios_get Tesseract_recognize pdfParse).

(** The race against the timer always ends. *)
Lemma extractTextFromImage_settles (imageUrl : string) :
  extractTextFromImage imageUrl <> Pending.
Proof.
  unfold OcrService.extractTextFromImage, raceTimeout.
  destruct (_extractTextFromImage _ _ _) as [ms a|ms e|];
    try destruct (ms <? _)%N; discriminate.
Qed.

(** X9. An image whose engine has not answered within the budget is given up
    with the timeout error. *)
Lemma extractTextFromImage_timeout (imageUrl : string) :
  (forall ms text, _extractTextFromImage axios_get Tesseract_recognize imageUrl
                   = Responds ms text -> (60000 <= ms)%N) ->
  (forall ms e, _extractTextFromImage axios_get Tesseract_recognize imageUrl
                = Fails ms e -> (60000 <= ms)%N) ->
  extractTextFromImage imageUrl = Rejected (JsError "OCR Timeout").
Proof.
  intros Hr Hf. unfold OcrService.extractTextFromImage, raceTimeout.
  destruct (_extractTextFromImage _ _ _) as [ms a|ms e|] eqn:He;
    [specialize (Hr _ _ eq_refl)|specialize (Hf _ _ eq_refl)|reflexivity];
    unfold submissionTimeout;
    destruct (N.ltb_spec ms 60000); (reflexivity || lia).
Qed.

(** The callback never throws: it comes back, or it waits for ever. *)
Lemma processAttachment_cases (att : Attachment.t) :
  processAttachment att = Pending \/
  exists att' r, processAttachment att = Resolved (att', r).
Proof.
  unfold OcrService.processAttachment, tryCatch, bindS.
  destruct (Js.includes "image" _).
  - destruct (extractTextFromImage _); eauto.
  - destruct (Js.includes "pdf" _); [|eauto].
    destruct (extractTextFromPdf _); eauto.
Qed.

(** A failed extraction leaves the attachment object as it was; only the
    value that the callback returns has the empty text. *)
Lemma processAttachment_failed (att : Attachment.t) (e : Error) :
  (if Js.includes "image" (Attachment.content_type att)
   then extractTextFromImage (Attachment.url att)
   else if Js.includes "pdf" (Attachment.content_type att)
        then extractTextFromPdf (Attachment.url att)
        else Pending) = Rejected e ->
  processAttachment att
  = Resolved (att, Some (Attachment.set_text att EmptyString)).
Proof.
  unfold OcrService.processAttachment, tryCatch, bindS.
  destruct (Js.includes "image" _).
  - intros ->. reflexivity.
  - destruct (Js.includes "pdf" _); [|discriminate].
    intros ->. reflexivity.
Qed.

Lemma processAttachment_annotated (att att' : Attachment.t) r :
  processAttachment att = Resolved (att', r) -> annotated att att'.
Proof.
  unfold OcrService.processAttachment, OcrService.annotated, tryCatch, bindS.
  destruct (Js.includes "image" _).
  - destruct (extractTextFromImage _) as [t|e|]; intros [= <- _];
      repeat split; try discriminate. now intros ? [= ->].
  - destruct (Js.includes "pdf" _).
    + destruct (extractTextFromPdf _) as [t|e|]; intros [= <- _];
        repeat split; try discriminate. now intros ? [= ->].
    + intros [= <- _]. repeat split.
Qed.

(** C7 (amended). When no attachment's extraction stays pending, the stage
    completes and publishes exactly two messages: one envelope on the common
    channel, whose kind is [ocr_completed], and the payload on the
    classification topic.  Both carry the full attachment list, in order,
    each entry annotated with its extracted text. *)
Theorem processOcr_emits (message : Payload.t) (w : World) :
  Forall (fun att => processAttachment att <> Pending)
         (Payload.attachments message) ->
  exists w' out,
    processOcr message w = (w', Resolved tt) /\
    kafka w' =
      kafka w
      ++ [("event.pipeline",
           PubEvent (Event.mk (Metadata.id (Payload.metadata message))
                              "ocr_completed"
                              (Payload.set_attachments message out)));
          ("classification.init",
           PubPayload (Payload.set_attachments message out))] /\
    Forall2 annotated (Payload.attachments message) out /\
    submissions w' = submissions w /\
    attachment_sets w' = attachment_sets w.
Proof.
  intros Hsettle.
  destruct (Promise_all_map processAttachment (Payload.attachments message))
    as (results & Hall & Hres).
  { eapply Forall_impl; [|exact Hsettle]. intros att Hp.
    destruct (processAttachment_cases att) as [Hpend|(att' & r & Hr)];
      [contradiction|eauto]. }
  eexists _, (map fst results).
  unfold OcrService.processOcr, tryCatchT, bind, await.
  rewrite Hall. cbn -[String.append].
  repeat split.
  - rewrite <- app_assoc. reflexivity.
  - clear Hall Hsettle. induction Hres as [|att [att' r] atts res H _ IH];
      simpl; constructor; [|exact IH].
    eapply processAttachment_annotated; exact H.
Qed.

(** X29. One attachment that waits for ever holds the whole stage: nothing is
    published. *)
Lemma processOcr_pending (message : Payload.t) (w : World) (att : Attachment.t) :
  In att (Payload.attachments message) ->
  processAttachment att = Pending ->
  processOcr message w = (w, Pending).
Proof.
  intros Hin Hp. unfold OcrService.processOcr, tryCatchT, bind, await.
  rewrite Promise_all_pending; [reflexivity| |].
  - rewrite <- Hp. now apply in_map.
  - apply Forall_forall. intros p Hp' e ->.
    apply in_map_iff in Hp' as (a & Ha & _).
    destruct (processAttachment_cases a) as [H|(? & ? & H)];
      rewrite H in Ha; discriminate.
Qed.

(** C8. The PDF path races against no timer: when the download or the PDF
    engine never answers, [extractTextFromPdf] stays pending for ever, and no
    timeout error ends it. *)
Theorem extractTextFromPdf_no_timeout (pdfUrl : string) :
  axios_get pdfUrl = Never \/
  (exists ms buffer, axios_get pdfUrl = Responds ms buffer /\
                     pdfParse buffer = Never) ->
  extractTextFromPdf pdfUrl = Pending /\
  (forall e, extractTextFromPdf pdfUrl <> Rejected e).
Proof.
  unfold OcrService.extractTextFromPdf, awaitTimed, andThen.
  intros [->|(ms & buffer & -> & ->)]; split; (reflexivity || discriminate).
Qed.

(** An answer of the PDF engine is taken however late it comes. *)
Lemma extractTextFromPdf_late_answer (pdfUrl : string) ms1 buffer ms2 text :
  axios_get pdfUrl = Responds ms1 buffer ->
  pdfParse buffer = Responds ms2 text ->
  extractTextFromPdf pdfUrl = Resolved (Js.trim text).
Proof.
  unfold OcrService.extractTextFromPdf, awaitTimed, andThen.
  intros -> ->. reflexivity.
Qed.

End Extraction.

Lemma extractTextFromPdf_no_timeout_witness :
  OcrService.extractTextFromPdf Samples.axios_get Samples.pdfParse
    "https://files/contract.pdf" = Pending.
Proof.
  apply (extractTextFromPdf_no_timeout Samples.axios_get Samples.pdfParse).
  right. exists 20%N, "https://files/contract.pdf". split; reflexivity.
Defined.

Lemma processOcr_emits_witness :
  exists w',
    OcrService.processOcr Samples.axios_get Samples.Tesseract_recognize
      Samples.goodPdfParse
      (Samples.mail [Samples.invoicePng; Samples.contractPdf; Samples.notesTxt])
      Samples.emptyWorld = (w', Resolved tt) /\
    map texts_of (published "classification.init" w')
    = [[Some "INVOICE 42"; Some "CONTRACT between A and B"; Some EmptyString]].
Proof.
  destruct (processOcr_emits Samples.axios_get Samples.Tesseract_recognize
              Samples.goodPdfParse
              (Samples.mail [Samples.invoicePng; Samples.contractPdf;
                             Samples.notesTxt])
              Samples.emptyWorld) as (w' & out & Hrun & _).
  - repeat constructor; discriminate.
  - exists w'. split; [exact Hrun|].
    apply (f_equal fst) in Hrun. simpl in Hrun. subst w'. reflexivity.
Defined.

(** C7 (as stated) fails: the one envelope that the extraction stage puts on
    the common channel has the kind [ocr_completed]; none has the kind
    [extraction_completed]. *)
Lemma processOcr_kind_is_ocr_completed :
  let w' :=
    fst (OcrService.processOcr Samples.axios_get Samples.Tesseract_recognize
           Samples.goodPdfParse
           (Samples.mail [Samples.invoicePng; Samples.contractPdf])
           Samples.emptyWorld) in
  (exists e, published "event.pipeline" w' = [PubEvent e] /\
             Event.message e = "ocr_completed") /\
  ~ (exists e, In (PubEvent e) (published "event.pipeline" w') /\
               Event.message e = "extraction_completed").
Proof.
  split.
  - eexists. split; reflexivity.
  - intros (e & [He|[]] & Hm). injection He as <-. discriminate Hm.
Qed.

(** C3. Three attachments, the first an image whose OCR engine throws (or
    answers only after the 60 s budget): the stage completes and publishes
    both messages, the other two entries carry their text, but the failed
    entry goes out with its [text] member still absent, not set to the
    empty string. *)
Theorem processOcr_failed_text_not_set :
  let message :=
    Samples.mail [Samples.invoicePng; Samples.contractPdf; Samples.notesTxt] in
  let thrown :=
    OcrService.processOcr Samples.axios_get Samples.brokenTesseract
      Samples.goodPdfParse message Samples.emptyWorld in
  let timedOut :=
    OcrService.processOcr Samples.axios_get Samples.slowTesseract
      Samples.goodPdfParse message Samples.emptyWorld in
  let texts := [None; Some "CONTRACT between A and B"; Some EmptyString] in
  snd thrown = Resolved tt /\
  map texts_of (published "event.pipeline" (fst thrown)) = [texts] /\
  map texts_of (published "classification.init" (fst thrown)) = [texts] /\
  snd timedOut = Resolved tt /\
  map texts_of (published "event.pipeline" (fst timedOut)) = [texts] /\
  map texts_of (published "classification.init" (fst timedOut)) = [texts] /\
  nth_error texts 0 <> Some (Some EmptyString).
Proof.
  repeat split; discriminate.
Qed.

(* ------------------------------------------------------------------ *)
(** ** Classification stage *)

Section Classification.
Import ClassificationService.

Variable generateContent : string -> Settled GenResponse.
Variable JSON_parse : string -> option Parsed.

Local Abbreviation classify := (classify generateContent JSON_parse).
Local Abbreviation classifyFile := (classifyFile generateContent JSON_parse).
Local Abbreviation processClassification :=
  (processClassification generateContent JSON_parse).
Local Abbreviation engine_failed := (engine_failed generateContent JSON_parse).
Local Abbreviation engine_confidence :=
  (engine_confidence generateContent JSON_parse).
Local Abbreviation classified_ok := (classified_ok generateContent JSON_parse).

(** An engine error and an answer that is not JSON both end in the
    fallback. *)
Lemma classify_fallback (text : string) :
  engine_failed text = true -> classify text = Resolved fallback.
Proof.
  unfold ClassificationService.engine_failed, ClassificationService.classify,
    tryCatch, bindS.
  destruct (generateContent _) as [response|e|]; [|reflexivity|discriminate].
  destruct (JSON_parse _); [discriminate|reflexivity].
Qed.

Lemma engine_failed_ok (text : string) :
  engine_failed text = true -> classified_ok text = true.
Proof.
  intros H. unfold ClassificationService.classified_ok.
  now rewrite classify_fallback.
Qed.

Lemma classifyFile_ok (file : Attachment.t) :
  classified_ok (asked file) = true ->
  exists type confidence,
    classify (asked file) = Resolved (ParsedValue type confidence) /\
    let file' :=
      Attachment.set_confidence
        (Attachment.set_classification file type) (onWire confidence) in
    classifyFile file = Resolved (file', (file', ParsedValue type confidence)).
Proof.
  unfold ClassificationService.classified_ok,
    ClassificationService.classifyFile, bindS, asked.
  destruct (classify _) as [[|type confidence]|e|]; try discriminate.
  intros _. now exists type, confidence.
Qed.

(** When every [classify] call comes back with a readable value, the stage
    completes and publishes its one envelope. *)
Lemma processClassification_emits (message : Payload.t) (w : World) :
  Forall (fun file => classified_ok (asked file) = true)
         (Payload.attachments message) ->
  exists w' out,
    processClassification message w = (w', Resolved tt) /\
    kafka w' =
      kafka w
      ++ [("event.pipeline",
           PubEvent (Event.mk (Metadata.id (Payload.metadata message))
                              "classification_completed"
                              (Payload.set_attachments message out)))] /\
    Forall2 (fun file file' =>
               exists type confidence,
                 classify (asked file) = Resolved (ParsedValue type confidence) /\
                 file' = Attachment.set_confidence
                           (Attachment.set_classification file type)
                           (onWire confidence))
            (Payload.attachments message) out /\
    submissions w' = submissions w /\
    attachment_sets w' = attachment_sets w.
Proof.
  intros Hok.
  destruct (Promise_all_map classifyFile (Payload.attachments message))
    as (results & Hall & Hres).
  { eapply Forall_impl; [|exact Hok]. intros file Hf.
    destruct (classifyFile_ok file Hf) as (type & confidence & _ & H). eauto. }
  eexists _, (map fst results).
  unfold ClassificationService.processClassification, tryCatchT, bind, await.
  rewrite Hall. cbn -[String.append].
  repeat split.
  clear Hall. induction Hres as [|file [file' r] files res H _ IH];
    simpl; constructor.
  - inversion Hok as [|? ? Hf _]; subst.
    destruct (classifyFile_ok file Hf) as (type & confidence & Hc & Hr).
    rewrite Hr in H. injection H as <- _. eauto.
  - apply IH. now inversion Hok.
Qed.


(** What [classify] returns carries the confidence member of the engine's
    answer as it is: nothing is clamped, rounded or checked on the way. *)
Lemma classify_confidence (text : string) type confidence :
  classify text = Resolved (ParsedValue type confidence) ->
  engine_confidence text = confidence.
Proof.
  unfold ClassificationService.classify,
    ClassificationService.engine_confidence, tryCatch, bindS.
  destruct (generateContent _) as [response|e|]; [| |discriminate].
  - destruct (JSON_parse _) as [[|type' confidence']|];
      unfold fallback; congruence.
  - unfold fallback. congruence.
Qed.

(** C9, as the code has it.  The confidence that reaches the store is the
    engine's own.  When the classification stage completes (every call
    settles, with an answer other than JSON [null]), then after the
    reconciliation of its envelope each stored entry carries the confidence
    member of the engine's answer for that attachment, as [JSON.stringify]
    writes it on the channel: the number itself when it is finite ([0] when
    the call failed or the answer is not JSON), [null] when it is missing or
    not finite.  Nothing clamps or checks it: it lies within 0.0-1.0
    whenever the finite confidences of the engine's answers do. *)
Theorem stored_confidence_is_engines
    (message : Payload.t) (w : World) (sub : Submission.t) (ref : ObjectId)
    (old : list Attachment.t) :
  Forall (fun file => classified_ok (asked file) = true)
         (Payload.attachments message) ->
  find (SubmissionModel.has_id
          (Metadata.submission_id (Payload.metadata message)))
       (submissions w) = Some sub ->
  Submission.attachments sub = Some ref ->
  stored ref w = Some old ->
  exists w1 event entries,
    processClassification message w = (w1, Resolved tt) /\
    kafka w1 = kafka w ++ [("event.pipeline", PubEvent event)] /\
    stored ref (fst (EventPipelineService.update event w1)) = Some entries /\
    Forall2 (fun file entry =>
               Attachment.confidence entry
               = onWire (engine_confidence (asked file)))
            (Payload.attachments message) entries /\
    ((forall file c, In file (Payload.attachments message) ->
                     engine_confidence (asked file) = Some (Finite c) ->
                     in_unit_interval c) ->
     forall entry c, In entry entries ->
                     Attachment.confidence entry = Some c ->
                     in_unit_interval c).
Proof.
  intros Hok Hsub Href Hold.
  destruct (processClassification_emits message w Hok)
    as (w1 & out & Hrun & Hk & Hout & Hs & Ha).
  assert (Hconf : Forall2 (fun file entry =>
            Attachment.confidence entry
            = onWire (engine_confidence (asked file)))
            (Payload.attachments message) out).
  { eapply Forall2_impl; [|exact Hout].
    intros file file' (type & confidence & Hc & ->).
    now rewrite (classify_confidence _ _ _ Hc). }
  eexists w1, _, out. split; [exact Hrun|]. split; [exact Hk|].
  split; [|split; [exact Hconf|]].
  - eapply update_stores_payload with (sub := sub) (old := old).
    + unfold addressed, target. simpl. now rewrite Hs.
    + exact Href.
    + unfold stored. rewrite Ha. exact Hold.
  - intros Hrange entry c Hin Hc. clear - Hconf Hrange Hin Hc.
    induction Hconf as [|file e files es He _ IH]; [contradiction|].
    destruct Hin as [->|Hin].
    + apply (Hrange file); [now left|].
      rewrite Hc in He.
      destruct (engine_confidence (asked file)) as [[q|negative]|];
        simpl in He; congruence.
    + apply IH; [|exact Hin]. intros f c' Hf. apply Hrange. now right.
Qed.

End Classification.

(* ------------------------------------------------------------------ *)
(** ** The statements at work on the sample data *)

Lemma update_unknown_submission_noop_witness :
  EventPipelineService.update
    (Event.mk "id-9" "ocr_completed"
       (Payload.mk (Metadata.mk "s" "x@y.z" "b" 0%N "id-9"
                                [Samples.notesTxt] "id-9")))
    Samples.linkedWorld
  = (Samples.linkedWorld, Resolved tt).
Proof.
  apply update_unknown_submission_noop. reflexivity.
Defined.

Lemma update_null_reference_status_and_stamp_witness :
  let event :=
    Event.mk "id-1" "ocr_completed" (Samples.mail [Samples.notesTxt]) in
  exists w' sub',
    EventPipelineService.update event Samples.bareWorld = (w', Resolved tt) /\
    attachment_sets w' = [] /\
    addressed event w' = Some sub' /\
    Submission.status sub' = "ocr_completed" /\
    Submission.updatedAt sub' = 2000%N /\
    Submission.createdAt sub' = 1000%N.
Proof.
  intros event.
  destruct (update_null_reference_status_and_stamp event Samples.bareWorld
              (Submission.mk 1%N "a@b.com" "see attached" 1000%N "id-1"
                             None "ingestion in progress" 1000%N 1000%N)
              eq_refl eq_refl)
    as (w' & pre & post & sub' & Hrun & _ & _ & Haddr & Hst & Hup & _ & _ & _
        & _ & _ & _ & Hcr & Hsets & _).
  exists w', sub'. repeat split; assumption.
Defined.

(** C10 (as stated) fails: the status is not the only field of the
    Submission that the update changes.  The record was last written at
    1000; reconciling an envelope at 2000 leaves it with [updatedAt] 2000,
    which is not the old record with a new status. *)
Lemma update_null_reference_rewrites_updatedAt :
  let event :=
    Event.mk "id-1" "ocr_completed" (Samples.mail [Samples.notesTxt]) in
  let w' := fst (EventPipelineService.update event Samples.bareWorld) in
  exists sub sub',
    addressed event Samples.bareWorld = Some sub /\
    Submission.attachments sub = None /\
    addressed event w' = Some sub' /\
    Submission.updatedAt sub = 1000%N /\
    Submission.updatedAt sub' = 2000%N /\
    sub' <> Submission.set_status "ocr_completed" sub.
Proof.
  eexists _, _. repeat split; try reflexivity. discriminate.
Qed.

Lemma update_full_replace_witness :
  let eventA :=
    Event.mk "id-1" "ocr_completed"
             (Samples.mail [Samples.invoicePng; Samples.contractPdf]) in
  let eventB :=
    Event.mk "id-1" "classification_completed"
             (Samples.mail [Samples.notesTxt]) in
  stored 2%N
    (fst (EventPipelineService.update eventB
            (fst (EventPipelineService.update eventA Samples.linkedWorld))))
  = Some [Samples.notesTxt].
Proof.
  intros eventA eventB.
  exact (proj2 (proj2 (proj2
           (update_full_replace eventA eventB Samples.linkedWorld
              (Submission.mk 1%N "a@b.com" "see attached" 1000%N "id-1"
                             (Some 2%N) "ingestion done" 1000%N 1000%N)
              2%N [Samples.invoicePng]
              eq_refl eq_refl eq_refl eq_refl)))).
Defined.


Lemma stored_confidence_is_engines_witness :
  let message :=
    Samples.mail [Attachment.set_text Samples.invoicePng "INVOICE 42";
                  Attachment.set_text Samples.contractPdf "CONTRACT"] in
  ClassificationService.engine_confidence Samples.generateContent
    Samples.JSON_parse "INVOICE 42" = Some (Finite 5%Q) /\
  exists w1 event entries,
    ClassificationService.processClassification Samples.generateContent
      Samples.JSON_parse message Samples.linkedWorld = (w1, Resolved tt) /\
    stored 2%N (fst (EventPipelineService.update event w1)) = Some entries /\
    Forall2 (fun file entry =>
               Attachment.confidence entry
               = onWire (ClassificationService.engine_confidence
                           Samples.generateContent Samples.JSON_parse
                           (ClassificationService.asked file)))
            (Payload.attachments message) entries.
Proof.
  intros message. split; [reflexivity|].
  destruct (stored_confidence_is_engines Samples.generateContent
              Samples.JSON_parse message Samples.linkedWorld
              (Submission.mk 1%N "a@b.com" "see attached" 1000%N "id-1"
                             (Some 2%N) "ingestion done" 1000%N 1000%N)
              2%N [Samples.invoicePng])
    as (w1 & event & entries & Hrun & _ & Hstored & Hconf & _);
    try reflexivity.
  - repeat constructor.
  - exists w1, event, entries. auto.
Defined.


(** A confidence that is not finite does not reach the store: the engine
    answers [1e999], which [JSON.parse] reads as an infinity and
    [JSON.stringify] writes as [null]. *)
Lemma stored_confidence_infinite_is_null :
  let message :=
    Samples.mail [Attachment.set_text Samples.invoicePng "INVOICE 42"] in
  let w1 :=
    fst (ClassificationService.processClassification MoreSamples.hugeEngine
           MoreSamples.hugeParse message Samples.linkedWorld) in
  ClassificationService.engine_confidence MoreSamples.hugeEngine
    MoreSamples.hugeParse "INVOICE 42" = Some (Infinity false) /\
  exists event,
    published "event.pipeline" w1 = [PubEvent event] /\
    option_map (map Attachment.confidence)
               (stored 2%N (fst (EventPipelineService.update event w1)))
    = Some [None].
Proof.
  split; [reflexivity|]. eexists. split; reflexivity.
Qed.

(** C9 (as stated) fails: the engine answers the invoice with confidence 5,
    and 5 is what the classification stage writes and the reconciler
    stores. *)
Lemma stored_confidence_out_of_range :
  let message :=
    Samples.mail [Attachment.set_text Samples.invoicePng "INVOICE 42"] in
  let w1 :=
    fst (ClassificationService.processClassification Samples.generateContent
           Samples.JSON_parse message Samples.linkedWorld) in
  exists event c,
    published "event.pipeline" w1 = [PubEvent event] /\
    option_map (map Attachment.confidence)
               (stored 2%N (fst (EventPipelineService.update event w1)))
    = Some [Some c] /\
    ~ in_unit_interval c.
Proof.
  eexists _, 5%Q. split; [reflexivity|]. split; [reflexivity|].
  intros [_ H]. now apply H.
Qed.

(* ================================================================== *)
(** * Further properties of the services *)

(** ** Collections, continued *)

Section UpdateFirstFrame.
Context {A : Type} (p : A -> bool) (f : A -> A).

Lemma map_update_first {B} (g : A -> B) (l : list A) :
  (forall x, g (f x) = g x) -> map g (update_first p f l) = map g l.
Proof.
  intros Hg. induction l as [|x l IH]; simpl; [reflexivity|].
  destruct (p x); simpl; [now rewrite Hg|now rewrite IH].
Qed.

Lemma filter_others_update_first (q : A -> bool) (l : list A) :
  (forall x, p x = true -> q x = false) ->
  (forall x, q (f x) = q x) ->
  filter q (update_first p f l) = filter q l.
Proof.
  intros Hpq Hq. induction l as [|x l IH]; simpl; [reflexivity|].
  destruct (p x) eqn:Hp; simpl.
  - now rewrite Hq, (Hpq x Hp).
  - now rewrite IH.
Qed.
Lemma find_others_update_first (q : A -> bool) (l : list A) :
  (forall x, p x = true -> q x = false) ->
  (forall x, q (f x) = q x) ->
  find q (update_first p f l) = find q l.
Proof.
  intros Hpq Hq. induction l as [|x l IH]; simpl; [reflexivity|].
  destruct (p x) eqn:Hp; simpl.
  - now rewrite Hq, (Hpq x Hp).
  - now rewrite IH.
Qed.
End UpdateFirstFrame.

(* ------------------------------------------------------------------ *)
(** ** Status reconciler, continued *)

Section ReconcilerFrame.
Import EventPipelineService.

(** X1. The reconciler neither creates nor deletes nor relinks a record:
    whatever the envelope, every Submission keeps its place, its [_id],
    sender, body, timestamp, id and attachments reference, every
    Attachment-set keeps its place and [_id], and the channel log and the
    cache are not written. *)
Theorem update_keeps_records (event : Event.t) (w : World) :
  let w' := fst (update event w) in
  snd (update event w) = Resolved tt /\
  map identity (submissions w') = map identity (submissions w) /\
  map AttachmentSet._id (attachment_sets w')
  = map AttachmentSet._id (attachment_sets w) /\
  next_oid w' = next_oid w /\ kafka w' = kafka w /\ redis w' = redis w.
Proof.
  rewrite update_run. cbn [fst snd submissions attachment_sets next_oid kafka redis].
  split; [reflexivity|]. split; [now apply map_update_first|].
  split; [|auto].
  destruct (addressed event w) as [sub|]; [|reflexivity].
  destruct (Submission.attachments sub); [|reflexivity].
  now apply map_update_first.
Qed.

(** X2. An envelope touches one submission only: the Submissions whose id is
    not the envelope's submission id are left exactly as they were, status
    included, and so is every Attachment-set other than the one the addressed
    Submission refers to. *)
Theorem update_scoped_to_submission (event : Event.t) (w : World) :
  let w' := fst (update event w) in
  filter (fun d => negb (SubmissionModel.has_id (target event) d))
         (submissions w')
  = filter (fun d => negb (SubmissionModel.has_id (target event) d))
           (submissions w) /\
  forall ref,
    (forall sub, addressed event w = Some sub ->
                 Submission.attachments sub <> Some ref) ->
    stored ref w' = stored ref w.
Proof.
  rewrite update_run. cbn [fst submissions attachment_sets]. split.
  - apply filter_others_update_first; [|reflexivity].
    intros d ->. reflexivity.
  - intros ref Hother. unfold stored. cbn [attachment_sets].
    destruct (addressed event w) as [sub|]; [|reflexivity].
    specialize (Hother sub eq_refl).
    destruct (Submission.attachments sub) as [r|]; [|reflexivity].
    assert (Hr : r <> ref) by congruence. clear Hother.
    rewrite find_others_update_first; [reflexivity| |reflexivity].
    unfold AttachmentModel.has_oid. intros d Hd.
    apply N.eqb_eq in Hd. rewrite Hd. now apply N.eqb_neq.
Qed.

(** X3. The last envelope wins when the updates run one after the other:
    after [EventPipelineService.update] has run to its end for each of a
    series of envelopes for one submission, in turn, the whole store is what
    the update for the last of them alone gives; nothing of the earlier ones
    is left, in the status or in the entries. *)
Theorem reconcile_last_envelope_wins
    (events : list Event.t) (last : Event.t) (w : World) :
  Forall (fun event => target event = target last) events ->
  reconcile (events ++ [last]) w = reconcile [last] w.
Proof.
  intros Hsame. revert w.
  induction Hsame as [|event events Ht _ IH]; intros w; [reflexivity|].
  change (reconcile ((event :: events) ++ [last]) w)
    with (reconcile (events ++ [last]) (fst (update event w))).
  rewrite IH. unfold reconcile. simpl.
  now rewrite update_absorbs.
Qed.

(** X4. The status write has no order guard: whatever status the addressed
    Submission has, after [update] it has the envelope's kind (and the time
    of the update as its [updatedAt]), so an envelope of an earlier stage
    that arrives late sets the status back. *)
Theorem update_overwrites_status
    (event : Event.t) (w : World) (sub : Submission.t) :
  addressed event w = Some sub ->
  addressed event (fst (update event w))
  = Some (Submission.touch (clock w)
            (Submission.set_status (Event.message event) sub)) /\
  option_map Submission.status (addressed event (fst (update event w)))
  = Some (Event.message event).
Proof.
  intros Hsub. rewrite update_run. unfold addressed in *. cbn [fst submissions].
  rewrite find_update_first by reflexivity.
  rewrite Hsub. split; reflexivity.
Qed.

End ReconcilerFrame.

(* ------------------------------------------------------------------ *)
(** ** Ingestion stage, continued *)

Section IngestionEffects.
Import IngestionService.

Lemma normalize_fields (atts : list Attachment.t) :
  Forall2 (fun att sent =>
             Attachment.filename sent
             = Some (Js.nullish (Attachment.filename att) EmptyString) /\
             Attachment.content_type sent = Attachment.content_type att /\
             Attachment.url sent = Attachment.url att /\
             Attachment.text sent = None /\
             Attachment.classification sent = None /\
             Attachment.confidence sent = None)
          atts (map normalize atts).
Proof.
  induction atts as [|att atts IH]; simpl; constructor; [|exact IH].
  repeat split.
Qed.

(** What a valid event leaves on the channel and in the cache. *)
Lemma ingestion_channel (message : Payload.t) (w : World) :
  valid_event message = true ->
  let md := Payload.metadata message in
  let w' := fst (ingestion message w) in
  let payload := forwarded message (clock w) in
  let event := Event.mk (Metadata.id md) "ingestion_completed" payload in
  kafka w' = kafka w ++ [("event.pipeline", PubEvent event);
                         ("ocr.init", PubPayload payload)] /\
  redis w' = mkRedisEntry ("redis:status:" ++ Metadata.id md) event None
             :: filter (fun e => negb (String.eqb (redis_key e)
                                         ("redis:status:" ++ Metadata.id md)))
                       (redis w).
Proof.
  intros Hv md w' payload event.
  destruct (valid_event_inv _ Hv) as (Hs & Hb & Hi & Ha). fold md in Hs, Hb, Hi, Ha.
  subst w' event payload. unfold forwarded, ingestion, bind,
    SubmissionModel.create. cbv zeta. fold md. rewrite Hs, Hb, Hi.
  cbn [negb required].
  destruct (Metadata.attachments md) as [|a l] eqn:Hl.
  - cbn -[String.append]. rewrite <- app_assoc. split; reflexivity.
  - unfold AttachmentModel.create, bind.
    cbn [submissions attachment_sets next_oid clock kafka redis].
    rewrite Ha. cbn -[String.append map]. rewrite <- app_assoc.
    split; reflexivity.
Qed.

(** X5. A valid event is announced once: ingestion appends exactly two
    messages to the channel, the [ingestion_completed] envelope on
    [event.pipeline] and then the payload on [ocr.init], both with the event's
    id as submission id and with the attachment list reduced to file name,
    content type and location; the envelope is also cached under
    [redis:status:<id>] without expiry. *)
Theorem ingestion_announces (message : Payload.t) (w : World) :
  valid_event message = true ->
  let md := Payload.metadata message in
  let w' := fst (ingestion message w) in
  let payload := forwarded message (clock w) in
  let event := Event.mk (Metadata.id md) "ingestion_completed" payload in
  kafka w' = kafka w ++ [("event.pipeline", PubEvent event);
                         ("ocr.init", PubPayload payload)] /\
  cached ("redis:status:" ++ Metadata.id md) w'
  = Some (mkRedisEntry ("redis:status:" ++ Metadata.id md) event None) /\
  target event = Metadata.id md /\
  Forall2 (fun att sent =>
             Attachment.filename sent
             = Some (Js.nullish (Attachment.filename att) EmptyString) /\
             Attachment.content_type sent = Attachment.content_type att /\
             Attachment.url sent = Attachment.url att /\
             Attachment.text sent = None /\
             Attachment.classification sent = None /\
             Attachment.confidence sent = None)
          (Metadata.attachments md) (Payload.attachments payload).
Proof.
  intros Hv md w' payload event.
  destruct (ingestion_channel message w Hv) as (Hk & Hr).
  split; [exact Hk|]. split.
  - unfold cached. fold md w' in Hr. rewrite Hr. cbn [find redis_key].
    now rewrite String.eqb_refl.
  - split; [reflexivity|]. apply normalize_fields.
Qed.

(** X6. An event whose sender, body or id is empty is refused before anything
    is written: ingestion rejects with a validation error and leaves both
    collections, the channel and the cache exactly as they were. *)
Theorem ingestion_refuses_invalid_submission (message : Payload.t) (w : World) :
  let md := Payload.metadata message in
  required (Metadata.sender md) && required (Metadata.body md)
  && required (Metadata.id md) = false ->
  exists path, ingestion message w = (w, Rejected (ValidationError path)).
Proof.
  intros md Hbad. unfold ingestion, bind, SubmissionModel.create. fold md.
  destruct (required (Metadata.sender md)); [|now eexists].
  destruct (required (Metadata.body md)); [|now eexists].
  destruct (required (Metadata.id md)); [discriminate|now eexists].
Qed.

Lemma missing_none (a : Attachment.t) :
  AttachmentModel.missing a = None <-> AttachmentModel.entry_valid a = true.
Proof.
  unfold AttachmentModel.missing, AttachmentModel.entry_valid.
  destruct (match Attachment.filename a with
            | Some f => required f
            | None => false
            end);
    destruct (required (Attachment.content_type a));
    destruct (required (Attachment.url a)); simpl; split; congruence.
Qed.

(** The path that a refused list is refused with names its first entry that
    misses a required field, by position, and the first such field. *)
Lemma failingPath_first (l : list Attachment.t) (k : nat) :
  forallb AttachmentModel.entry_valid l = false ->
  exists i a field,
    nth_error l i = Some a /\
    forallb AttachmentModel.entry_valid (firstn i l) = true /\
    AttachmentModel.missing a = Some field /\
    AttachmentModel.failingPath k l
    = ("attachments." ++ AttachmentModel.index (k + i) ++ "." ++ field)%string.
Proof.
  revert k. induction l as [|a l IH]; intros k; simpl; [discriminate|].
  destruct (AttachmentModel.missing a) as [field|] eqn:Hm.
  - intros _. exists 0%nat, a, field.
    replace (k + 0)%nat with k by lia. auto.
  - apply missing_none in Hm. rewrite Hm. simpl. intros Hbad.
    destruct (IH (S k) Hbad) as (i & b & field & Hn & Hpre & Hb & Hp).
    exists (S i), b, field. simpl. rewrite Hm.
    replace (k + S i)%nat with (S k + i)%nat by lia. auto.
Qed.

(** X7. When the Submission is accepted but an attachment entry lacks its
    file name, content type or location, ingestion stops half way: it rejects
    with a validation error on the path [attachments.<i>.<field>] of the
    first such entry and field, after the Submission has been inserted,
    which stays in the store with the status [ingestion in progress] and no
    attachments; no Attachment-set is created and nothing is published or
    cached. *)
Theorem ingestion_invalid_attachment_half_done (message : Payload.t) (w : World) :
  let md := Payload.metadata message in
  required (Metadata.sender md) && required (Metadata.body md)
  && required (Metadata.id md) = true ->
  forallb AttachmentModel.entry_valid (Metadata.attachments md) = false ->
  let w' := fst (ingestion message w) in
  (exists i a field,
     nth_error (Metadata.attachments md) i = Some a /\
     forallb AttachmentModel.entry_valid (firstn i (Metadata.attachments md))
     = true /\
     AttachmentModel.missing a = Some field /\
     snd (ingestion message w)
     = Rejected (ValidationError
                   ("attachments." ++ AttachmentModel.index i ++ "."
                    ++ field)%string)) /\
  submissions w' = submissions w ++ [created message w] /\
  attachment_sets w' = attachment_sets w /\
  kafka w' = kafka w /\ redis w' = redis w.
Proof.
  intros md Hok Hbad w'. subst w'.
  destruct (failingPath_first _ 0 Hbad) as (i & b & field & Hn & Hpre & Hb & Hp).
  apply andb_true_iff in Hok as [Hok Hi]. apply andb_true_iff in Hok as [Hs Hb'].
  unfold ingestion, bind, SubmissionModel.create, created. fold md.
  rewrite Hs, Hb', Hi. cbn [negb required].
  destruct (Metadata.attachments md) as [|a l] eqn:Hl; [discriminate|].
  unfold AttachmentModel.create, bind.
  cbn [submissions attachment_sets next_oid clock kafka redis].
  rewrite Hbad. cbn [fst snd]. rewrite Hp.
  split; [|repeat split].
  exists i, b, field. auto.
Qed.

End IngestionEffects.

(* ------------------------------------------------------------------ *)
(** ** Promises, continued *)

Lemma Promise_all_rejected {A} (ps : list (Settled A)) (e : Error) :
  In (Rejected e) ps -> exists e', Promise_all ps = Rejected e'.
Proof.
  induction ps as [|p ps IH]; simpl; [contradiction|].
  intros [->|Hin]; [now eexists|].
  destruct (IH Hin) as (e' & ->).
  destruct p; now eexists.
Qed.

(* ------------------------------------------------------------------ *)
(** ** Extraction stage, continued *)

Section ExtractionBudget.
Import OcrService.

Variable axios_get : string -> Timed Buffer.
Variable Tesseract_recognize : Buffer -> Timed string.
Variable pdfParse : Buffer -> Timed string.

Local Abbreviation extractTextFromImage :=
  (extractTextFromImage axios_get Tesseract_recognize).
Local Abbreviation processOcr :=
  (processOcr axios_get Tesseract_recognize pdfParse).

(** X8. The 60 s budget of an image covers the download and the recognition
    together: when both answer, the text comes back trimmed if their
    latencies add up to less than 60 000 ms, and the call is given up with
    [OCR Timeout] otherwise. *)
Theorem extractTextFromImage_budget
    (imageUrl : string) (ms1 ms2 : N) (buffer : Buffer) (text : string) :
  axios_get imageUrl = Responds ms1 buffer ->
  Tesseract_recognize buffer = Responds ms2 text ->
  extractTextFromImage imageUrl =
    if (ms1 + ms2 <? 60000)%N then Resolved (Js.trim text)
    else Rejected (JsError "OCR Timeout").
Proof.
  intros Hget Hrec.
  unfold OcrService.extractTextFromImage, _extractTextFromImage, andThen.
  rewrite Hget, Hrec. cbn [delay raceTimeout]. now rewrite N.add_0_r.
Qed.

(** X10. The extraction stage only speaks on the channel and in the cache:
    however it ends, it leaves the Submission and Attachment-set collections
    as they were, and it never rejects; it resolves or waits for ever. *)
Theorem processOcr_leaves_store (message : Payload.t) (w : World) :
  let w' := fst (processOcr message w) in
  submissions w' = submissions w /\
  attachment_sets w' = attachment_sets w /\
  next_oid w' = next_oid w /\
  forall e, snd (processOcr message w) <> Rejected e.
Proof.
  unfold OcrService.processOcr, tryCatchT, bind, await.
  destruct (Promise_all _) as [results|e|] eqn:Hall.
  - cbn -[String.append]. repeat split. intros e; discriminate.
  - exfalso. clear w.
    assert (Hin : forall l, Promise_all l = Rejected e ->
              exists e', In (@Rejected (Attachment.t * option Attachment.t) e') l).
    { induction l as [|p l IH]; simpl; [discriminate|].
      destruct p as [a|e'|]; [|intros _; exists e'; now left|];
        destruct (Promise_all l); try discriminate;
        intros Heq; destruct (IH Heq) as (e' & H); exists e'; now right. }
    destruct (Hin _ Hall) as (e' & He').
    apply in_map_iff in He' as (att & Hatt & _).
    destruct (processAttachment_cases axios_get Tesseract_recognize pdfParse att)
      as [H|(? & ? & H)]; rewrite H in Hatt; discriminate.
  - cbn. repeat split. intros e; discriminate.
Qed.

End ExtractionBudget.

(* ------------------------------------------------------------------ *)
(** ** Classification stage, continued *)

Section ClassificationEdges.
Import ClassificationService.

Variable generateContent : string -> Settled GenResponse.
Variable JSON_parse : string -> option Parsed.

Local Abbreviation classify := (classify generateContent JSON_parse).
Local Abbreviation classifyFile := (classifyFile generateContent JSON_parse).
Local Abbreviation processClassification :=
  (processClassification generateContent JSON_parse).
Local Abbreviation classified_ok := (classified_ok generateContent JSON_parse).

(** X11. [classify] absorbs every error: it never rejects.  It resolves as
    soon as the engine call settles, and it is pending exactly when the
    engine never answers, for no timer guards the call. *)
Theorem classify_never_rejects (text : string) :
  (forall e, classify text <> Rejected e) /\
  (classify text = Pending <-> generateContent (prompt text) = Pending).
Proof.
  unfold ClassificationService.classify, tryCatch, bindS.
  destruct (generateContent _) as [response|e|].
  - destruct (JSON_parse _); split; try (intros e; discriminate);
      split; discriminate.
  - split; [intros e'; discriminate|split; discriminate].
  - split; [intros e; discriminate|split; reflexivity].
Qed.

Lemma classifyFile_rejects_only_null (file : Attachment.t) (e : Error) :
  classifyFile file = Rejected e -> classify (asked file) = Resolved ParsedNull.
Proof.
  unfold ClassificationService.classifyFile, bindS, asked.
  destruct (classify _) as [[|type confidence]|e'|] eqn:Hc; try discriminate.
  - reflexivity.
  - destruct (classify_never_rejects (Js.orElse (Attachment.text file) EmptyString))
      as [Hnever _].
    now destruct (Hnever e').
Qed.

(** X12. An answer that parses to JSON [null] is not absorbed: reading its
    [type] throws outside [classify], so one such attachment makes the whole
    stage reject with [Classification processing failed]; no envelope is
    published and nothing is cached. *)
Theorem processClassification_null_aborts
    (message : Payload.t) (w : World) (file : Attachment.t) :
  In file (Payload.attachments message) ->
  classify (asked file) = Resolved ParsedNull ->
  processClassification message w =
    (w, Rejected (InternalServerErrorException
                    "Classification processing failed")).
Proof.
  intros Hin Hnull.
  unfold ClassificationService.processClassification, tryCatchT, bind, await.
  destruct (Promise_all_rejected (map classifyFile (Payload.attachments message))
              (TypeError "Cannot read properties of null")) as (e' & ->);
    [|reflexivity].
  apply in_map_iff. exists file. split; [|exact Hin].
  unfold ClassificationService.classifyFile, bindS. fold (asked file).
  now rewrite Hnull.
Qed.

(** X13. The classification stage has no timeout: when the engine never
    answers for one attachment and no other answer is [null], the stage
    waits for ever and publishes nothing. *)
Theorem processClassification_pending
    (message : Payload.t) (w : World) (file : Attachment.t) :
  In file (Payload.attachments message) ->
  generateContent (prompt (asked file)) = Pending ->
  Forall (fun other => classify (asked other) <> Resolved ParsedNull)
         (Payload.attachments message) ->
  processClassification message w = (w, Pending).
Proof.
  intros Hin Hpend Hnonull.
  unfold ClassificationService.processClassification, tryCatchT, bind, await.
  rewrite Promise_all_pending; [reflexivity| |].
  - apply in_map_iff. exists file. split; [|exact Hin].
    unfold ClassificationService.classifyFile, bindS. fold (asked file).
    now rewrite (proj2 (proj2 (classify_never_rejects (asked file))) Hpend).
  - apply Forall_forall. intros p Hp e ->.
    apply in_map_iff in Hp as (other & Hother & Hin').
    apply classifyFile_rejects_only_null in Hother.
    rewrite Forall_forall in Hnonull. now apply (Hnonull other Hin').
Qed.

(** X14. Classification only annotates: when the stage completes, its
    envelope carries the same entries in the same order, each with its file
    name, content type, location and text untouched; only the
    classification and confidence members are written. *)
Theorem processClassification_keeps_entries (message : Payload.t) (w : World) :
  Forall (fun file => classified_ok (asked file) = true)
         (Payload.attachments message) ->
  exists w' out,
    processClassification message w = (w', Resolved tt) /\
    published "event.pipeline" w'
    = published "event.pipeline" w
      ++ [PubEvent (Event.mk (Metadata.id (Payload.metadata message))
                             "classification_completed"
                             (Payload.set_attachments message out))] /\
    length out = length (Payload.attachments message) /\
    Forall2 (fun file file' =>
               Attachment.filename file' = Attachment.filename file /\
               Attachment.content_type file' = Attachment.content_type file /\
               Attachment.url file' = Attachment.url file /\
               Attachment.text file' = Attachment.text file)
            (Payload.attachments message) out.
Proof.
  intros Hok.
  destruct (processClassification_emits generateContent JSON_parse message w Hok)
    as (w' & out & Hrun & Hk & Hout & _).
  exists w', out. split; [exact Hrun|]. split; [|split].
  - unfold published. rewrite Hk, filter_app, map_app. reflexivity.
  - symmetry. eapply Forall2_length; exact Hout.
  - eapply Forall2_impl; [|exact Hout].
    intros file file' (type & confidence & _ & ->). repeat split.
Qed.

End ClassificationEdges.

(* ------------------------------------------------------------------ *)
(** ** Strings: trimming *)

Section Trimming.
Import Js.
Local Open Scope string_scope.

Lemma append_assoc (a b c : string) : (a ++ b) ++ c = a ++ (b ++ c).
Proof. induction a as [|x a IH]; simpl; [reflexivity|now rewrite IH]. Qed.

Lemma append_nil_r (a : string) : a ++ EmptyString = a.
Proof. induction a as [|x a IH]; simpl; [reflexivity|now rewrite IH]. Qed.

Lemma trimStart_length (s : string) : (String.length (trimStart s) <= String.length s)%nat.
Proof.
  induction s as [|c s IH]; simpl; [lia|].
  destruct (isSpace c); simpl; lia.
Qed.

Lemma trimEnd_length (s : string) : (String.length (trimEnd s) <= String.length s)%nat.
Proof.
  induction s as [|c s IH]; simpl; [lia|].
  destruct (trimEnd s); [destruct (isSpace c)|]; simpl in *; lia.
Qed.

Lemma trimStart_fixed (s : string) :
  String.length (trimStart s) = String.length s -> trimStart s = s.
Proof.
  destruct s as [|c s]; simpl; [reflexivity|].
  destruct (isSpace c); [|reflexivity].
  pose proof (trimStart_length s). lia.
Qed.

Lemma trimEnd_fixed (s : string) :
  String.length (trimEnd s) = String.length s -> trimEnd s = s.
Proof.
  induction s as [|c s IH]; simpl; [reflexivity|].
  pose proof (trimEnd_length s) as Hlen.
  destruct (trimEnd s) as [|d kept] eqn:Hk.
  - destruct (isSpace c); simpl; [discriminate|].
    intros Hl. destruct s; [reflexivity|simpl in Hl; discriminate].
  - simpl. intros Hl. rewrite IH; [reflexivity|simpl; lia].
Qed.

(** A string that [trim] leaves alone has no white space at either end. *)
Lemma trim_fixed (s : string) :
  trim s = s -> trimStart s = s /\ trimEnd s = s.
Proof.
  unfold trim. intros H.
  pose proof (trimStart_length s). pose proof (trimEnd_length (trimStart s)).
  assert (Hl : String.length (trimEnd (trimStart s)) = String.length s)
    by now rewrite H.
  assert (Hs : trimStart s = s) by (apply trimStart_fixed; lia).
  split; [exact Hs|]. now rewrite Hs in H.
Qed.

Lemma trimStart_head (s : string) :
  match trimStart s with
  | EmptyString => True
  | String c _ => isSpace c = false
  end.
Proof.
  induction s as [|c s IH]; simpl; [exact I|].
  destruct (isSpace c) eqn:Hc; [exact IH|exact Hc].
Qed.

Lemma trimEnd_idem (s : string) : trimEnd (trimEnd s) = trimEnd s.
Proof.
  induction s as [|c s IH]; simpl; [reflexivity|].
  destruct (trimEnd s) as [|d kept] eqn:Hk.
  - destruct (isSpace c) eqn:Hc; simpl; [reflexivity|now rewrite Hc].
  - simpl in *. now rewrite IH.
Qed.

Lemma trimEnd_head (c : ascii) (s : string) :
  isSpace c = false -> exists rest, trimEnd (String c s) = String c rest.
Proof.
  intros Hc. simpl. destruct (trimEnd s); [rewrite Hc|]; eauto.
Qed.

Lemma trim_idem (s : string) : trim (trim s) = trim s.
Proof.
  unfold trim. pose proof (trimStart_head s) as Hh.
  destruct (trimStart s) as [|c t]; [reflexivity|].
  destruct (trimEnd_head c t Hh) as (rest & Hr).
  assert (Hst : trimStart (trimEnd (String c t)) = trimEnd (String c t))
    by (rewrite Hr; simpl; now rewrite Hh).
  rewrite Hst. apply trimEnd_idem.
Qed.

Lemma trimEnd_snoc_keep (s : string) (c : ascii) :
  isSpace c = false ->
  trimEnd (s ++ String c EmptyString) = s ++ String c EmptyString.
Proof.
  intros Hc. induction s as [|x s IH]; simpl; [now rewrite Hc|].
  rewrite IH. destruct (s ++ String c EmptyString) eqn:He; [|reflexivity].
  destruct s; discriminate.
Qed.

Lemma trimEnd_snoc_space (s : string) (c : ascii) :
  isSpace c = true -> trimEnd (s ++ String c EmptyString) = trimEnd s.
Proof.
  intros Hc. induction s as [|x s IH]; simpl; [now rewrite Hc|].
  now rewrite IH.
Qed.

Lemma trim_ends (c d : ascii) (mid : string) :
  isSpace c = false -> isSpace d = false ->
  trim (String c (mid ++ String d EmptyString))
  = String c (mid ++ String d EmptyString).
Proof.
  intros Hc Hd. unfold trim. cbn [trimStart]. rewrite Hc.
  change (String c (mid ++ String d EmptyString))
    with (String c mid ++ String d EmptyString).
  now apply trimEnd_snoc_keep.
Qed.

End Trimming.

(* ------------------------------------------------------------------ *)
(** ** Code fences *)

Section Fences.
Import ClassificationService.
Local Open Scope string_scope.

Lemma every_app (p : ascii -> bool) (a b : string) :
  every p (a ++ b) = every p a && every p b.
Proof.
  induction a as [|c a IH]; simpl; [reflexivity|].
  now rewrite IH, andb_assoc.
Qed.

Lemma removeFences_keep (c : ascii) (s : string) :
  notBackquote c = true ->
  removeFences false (String c s) = String c (removeFences false s).
Proof.
  unfold notBackquote. intros Hc. apply negb_true_iff in Hc.
  cbn [removeFences andb].
  destruct s as [|c2 [|c3 s]]; try reflexivity. now rewrite Hc.
Qed.

Lemma removeFences_plain (body rest : string) :
  every notBackquote body = true ->
  removeFences false (body ++ rest) = body ++ removeFences false rest.
Proof.
  induction body as [|c body IH]; [reflexivity|].
  cbn [every]. intros Hb. apply andb_true_iff in Hb as [Hc Hb].
  cbn [append]. rewrite removeFences_keep by exact Hc. now rewrite IH.
Qed.

Lemma removeFences_tag (tag rest : string) :
  every isLetter tag = true ->
  removeFences true (tag ++ nl ++ rest) = removeFences false rest.
Proof.
  induction tag as [|c tag IH]; [reflexivity|].
  cbn [every]. intros Ht. apply andb_true_iff in Ht as [Hc Ht].
  cbn [append removeFences andb]. rewrite Hc. now apply IH.
Qed.

Lemma removeFinalFence_plain (s : string) :
  every notBackquote s = true -> removeFinalFence s = s.
Proof.
  induction s as [|c s IH]; [reflexivity|].
  cbn [every]. intros Hs. apply andb_true_iff in Hs as [Hc Hs].
  unfold notBackquote in Hc. apply negb_true_iff in Hc.
  cbn [removeFinalFence String.eqb fence]. rewrite Hc.
  now rewrite IH.
Qed.

(** X15. A fenced answer is unwrapped to what it holds: for a block that
    opens with three backquotes and a tag of letters, a line feed, a body
    without backquotes or outer white space, a line feed and three closing
    backquotes, [stripFences] gives back exactly the body. *)
Theorem stripFences_unwraps (tag body : string) :
  every isLetter tag = true ->
  every notBackquote body = true ->
  Js.trim body = body ->
  stripFences (fence ++ tag ++ nl ++ body ++ nl ++ fence) = body.
Proof.
  intros Htag Hbody Htrim.
  destruct (trim_fixed body Htrim) as [Hstart Hend].
  set (inner := tag ++ nl ++ body ++ nl).
  assert (Hwhole : Js.trim (fence ++ tag ++ nl ++ body ++ nl ++ fence)
                   = fence ++ tag ++ nl ++ body ++ nl ++ fence).
  { pose (two := String backquote (String backquote EmptyString)).
    assert (Hshape : fence ++ tag ++ nl ++ body ++ nl ++ fence
                     = String backquote
                         ((two ++ tag ++ nl ++ body ++ nl ++ two)
                          ++ String backquote EmptyString)).
    { rewrite !append_assoc. reflexivity. }
    rewrite Hshape. apply trim_ends; reflexivity. }
  unfold stripFences. rewrite Hwhole.
  change (Js.startsWith fence (fence ++ tag ++ nl ++ body ++ nl ++ fence))
    with (Js.startsWith EmptyString (tag ++ nl ++ body ++ nl ++ fence)).
  replace (Js.startsWith EmptyString (tag ++ nl ++ body ++ nl ++ fence))
    with true by (now destruct (tag ++ nl ++ body ++ nl ++ fence)).
  change (removeFences false (fence ++ tag ++ nl ++ body ++ nl ++ fence))
    with (removeFences true (tag ++ nl ++ body ++ nl ++ fence)).
  rewrite removeFences_tag by exact Htag.
  rewrite removeFences_plain by exact Hbody.
  change (removeFences false (nl ++ fence)) with nl.
  rewrite removeFinalFence_plain
    by (rewrite every_app, Hbody; reflexivity).
  unfold Js.trim.
  assert (Hs : Js.trimStart (body ++ nl) = body ++ nl \/ body = EmptyString).
  { destruct body as [|c body]; [now right|left].
    simpl in Hstart |- *. destruct (Js.isSpace c) eqn:Hc; [|reflexivity].
    exfalso. pose proof (trimStart_length body) as Hl.
    rewrite Hstart in Hl. simpl in Hl. lia. }
  destruct Hs as [->| ->]; [|reflexivity].
  unfold nl. rewrite trimEnd_snoc_space by reflexivity. exact Hend.
Qed.

End Fences.

(* ------------------------------------------------------------------ *)
(** ** Mail parsing helpers *)

Section MailParsing.
Import Parser.
Local Open Scope string_scope.

Lemma scanTags_cons (c : ascii) (rest : string) :
  scanTags (String c rest) =
  (if Ascii.eqb c "<" then
     match snd (scanTags rest) with
     | Some tail =>
         match rest with
         | String d _ =>
             if Ascii.eqb d ">" then String c (fst (scanTags rest)) else tail
         | EmptyString => String c (fst (scanTags rest))
         end
     | None => String c (fst (scanTags rest))
     end
   else String c (fst (scanTags rest)),
   if Ascii.eqb c ">" then Some (fst (scanTags rest)) else snd (scanTags rest)).
Proof.
  cbn [scanTags]. destruct (scanTags rest) as [stripped afterGt]. cbn [fst snd].
  destruct rest, afterGt; reflexivity.
Qed.

(** What follows the first [>] of a string, tags removed. *)
Lemma scanTags_after (name s : string) :
  every notGt name = true ->
  snd (scanTags (name ++ String ">" s)) = Some (stripTags s).
Proof.
  induction name as [|c name IH]; intros Hn.
  - cbn [append]. rewrite scanTags_cons. reflexivity.
  - cbn [every] in Hn. apply andb_true_iff in Hn as [Hc Hn].
    cbn [append]. rewrite scanTags_cons. cbn [snd].
    unfold notGt in Hc. apply negb_true_iff in Hc. rewrite Hc. now apply IH.
Qed.

Lemma scanTags_unclosed (s : string) :
  every notGt s = true -> snd (scanTags s) = None.
Proof.
  induction s as [|c s IH]; intros Hs; [reflexivity|].
  cbn [every] in Hs. apply andb_true_iff in Hs as [Hc Hs].
  rewrite scanTags_cons. cbn [snd].
  unfold notGt in Hc. apply negb_true_iff in Hc. rewrite Hc. now apply IH.
Qed.

(** X16. What the tag stripping of [extractBody] removes and what it keeps:
    a character other than [<] stays; a [<] followed by at least one
    character and closed by a [>] goes with everything up to its first [>];
    an empty pair of angle brackets stays, and so does a [<] that no [>]
    follows. *)
Theorem stripTags_equations :
  (forall c s, Ascii.eqb c "<" = false ->
               stripTags (String c s) = String c (stripTags s)) /\
  (forall c name s, notGt c = true -> every notGt name = true ->
               stripTags ("<" ++ String c name ++ ">" ++ s) = stripTags s) /\
  (forall s, stripTags ("<>" ++ s) = "<>" ++ stripTags s) /\
  (forall s, every notGt s = true -> stripTags ("<" ++ s) = "<" ++ stripTags s).
Proof.
  unfold stripTags. repeat split.
  - intros c s Hc. rewrite scanTags_cons. now rewrite Hc.
  - intros c name s Hc Hn. cbn [append].
    rewrite scanTags_cons. cbn [fst Ascii.eqb Bool.eqb].
    change (String c (name ++ String ">" s)) with (String c name ++ String ">" s).
    rewrite scanTags_after by (cbn [every]; now rewrite Hc, Hn).
    cbn [append]. unfold notGt in Hc. apply negb_true_iff in Hc. now rewrite Hc.
  - intros s. cbn [append]. rewrite scanTags_cons. cbn [fst Ascii.eqb Bool.eqb].
    rewrite (scanTags_cons ">" s). cbn [fst snd Ascii.eqb Bool.eqb].
    reflexivity.
  - intros s Hs. cbn [append]. rewrite scanTags_cons. cbn [fst Ascii.eqb Bool.eqb].
    rewrite scanTags_unclosed by exact Hs. now destruct s.
Qed.

Lemma trim_spaces (s : string) :
  every Js.isSpace s = true -> Js.trim s = EmptyString.
Proof.
  unfold Js.trim. intros Hs.
  assert (H : Js.trimStart s = EmptyString); [|now rewrite H].
  induction s as [|c s IH]; [reflexivity|].
  cbn [every] in Hs. apply andb_true_iff in Hs as [Hc Hs].
  cbn [Js.trimStart]. rewrite Hc. now apply IH.
Qed.

(** X17. The body that [extractBody] returns never has white space at
    either end, and a plain-text part takes precedence even when it holds
    nothing but white space: the body is then empty, whatever the HTML part
    says. *)
Theorem extractBody_trimmed (msg : ParsedMail) :
  Js.trim (extractBody msg) = extractBody msg /\
  (forall c t, text msg = Some (String c t) ->
               every Js.isSpace (String c t) = true ->
               extractBody msg = EmptyString).
Proof.
  unfold extractBody. split.
  - destruct (truthy (text msg)); [apply trim_idem|].
    destruct (truthy (html msg)); [apply trim_idem|reflexivity].
  - intros c t -> Hsp. cbn [truthy]. now apply trim_spaces.
Qed.

(** NO-BREAK SPACE (code 160) is white space for [trim] as TAB and LF are:
    it is dropped at both ends, and a text part made of it and a line feed
    gives an empty body. *)
Lemma extractBody_no_break_space :
  let nbsp := ascii_of_nat 160 in
  let lf := ascii_of_nat 10 in
  Js.trim (String nbsp ("INVOICE" ++ String nbsp EmptyString)) = "INVOICE" /\
  extractBody (mkParsedMail None None
                 (Some (String nbsp (String lf EmptyString)))
                 (Some "<p>hello</p>") None [])
  = EmptyString.
Proof.
  split; reflexivity.
Qed.

End MailParsing.

(* ------------------------------------------------------------------ *)
(** ** Mailbox poller *)

Section Poller.
Import Parser.

Variable upload_stream : string -> string -> Buffer -> Settled string.

Local Abbreviation uploaded := (uploadOf upload_stream).
Local Abbreviation extractAttachments := (extractAttachments upload_stream).
Local Abbreviation processMessage :=
  (LambdaService.processMessage upload_stream).

Lemma uploadPart_run (part : Part) (w : World) :
  uploadPart upload_stream part w =
  (w, match uploaded (clock w) part with
      | Resolved url => Resolved (entryOf part url)
      | Rejected e => Rejected e
      | Pending => Pending
      end).
Proof.
  unfold uploadPart, bind, now, await, ret, uploadOf.
  destruct (upload_stream _ _ _); reflexivity.
Qed.

Lemma uploadParts_run (parts : list Part) (urls : list string) (w : World) :
  Forall2 (fun part url => uploaded (clock w) part = Resolved url) parts urls ->
  uploadParts upload_stream parts w = (w, Resolved (entriesOf parts urls)).
Proof.
  induction 1 as [|part url parts urls Hup _ IH]; [reflexivity|].
  cbn [uploadParts]. unfold bind at 1. rewrite uploadPart_run, Hup.
  unfold bind at 1. rewrite IH. reflexivity.
Qed.

(** X18. When every upload succeeds, [extractAttachments] returns one entry
    per part, in the order of the parts: the part's file name ([untitled]
    when it has none), its content type and the URL of its upload, with no
    text, classification or confidence.  It touches none of the stores. *)
Theorem extractAttachments_uploads_all
    (msg : ParsedMail) (urls : list string) (w : World) :
  Forall2 (fun part url => uploaded (clock w) part = Resolved url)
          (attachments msg) urls ->
  extractAttachments msg w = (w, Resolved (entriesOf (attachments msg) urls)) /\
  length (entriesOf (attachments msg) urls) = length (attachments msg) /\
  Forall2 (fun part att =>
             Attachment.filename att
             = Some (Js.orElse (part_filename part) "untitled") /\
             Attachment.content_type att = contentType part /\
             uploaded (clock w) part = Resolved (Attachment.url att) /\
             Attachment.text att = None /\
             Attachment.classification att = None /\
             Attachment.confidence att = None)
          (attachments msg) (entriesOf (attachments msg) urls).
Proof.
  intros Hup. split; [now apply uploadParts_run|].
  unfold entriesOf. induction Hup as [|part url parts urls Hu _ [IHl IH]];
    simpl; split; try reflexivity; try constructor; try assumption.
  - now rewrite IHl.
  - repeat split. exact Hu.
Qed.

(** X19. One failed upload loses the mail's whole attachment list: when the
    uploads before a part succeed and that part's upload fails,
    [extractAttachments] rejects with that error and returns no entry at
    all, whatever the later parts are. *)
Theorem extractAttachments_fails_fast
    (msg : ParsedMail) (before after : list Part) (bad : Part)
    (urls : list string) (e : Error) (w : World) :
  attachments msg = before ++ bad :: after ->
  Forall2 (fun part url => uploaded (clock w) part = Resolved url) before urls ->
  uploaded (clock w) bad = Rejected e ->
  extractAttachments msg w = (w, Rejected e).
Proof.
  intros Hparts Hbefore Hbad. unfold Parser.extractAttachments. rewrite Hparts.
  clear Hparts. induction Hbefore as [|part url parts urls Hup _ IH].
  - cbn [app uploadParts]. unfold bind. now rewrite uploadPart_run, Hbad.
  - cbn [app uploadParts]. unfold bind at 1. rewrite uploadPart_run, Hup.
    unfold bind at 1. now rewrite IH.
Qed.

(** What the poller does with one parsed mail whose uploads succeed. *)
Lemma processMessage_run
    (parsed : ParsedMail) (randomId : string) (urls : list string) (w : World) :
  Forall2 (fun part url => uploaded (clock w) part = Resolved url)
          (attachments parsed) urls ->
  let ingestion :=
    polled parsed randomId (clock w) (entriesOf (attachments parsed) urls) in
  let event := Event.mk randomId "IMAP_DONE" ingestion in
  let w' := fst (processMessage parsed randomId w) in
  snd (processMessage parsed randomId w) = Resolved tt /\
  kafka w' = kafka w ++ [("event.pipeline", PubEvent event);
                         ("submission.found", PubPayload ingestion)] /\
  submissions w' = submissions w /\
  attachment_sets w' = attachment_sets w /\
  clock w' = clock w.
Proof.
  intros Hup ingestion event w'. subst w'.
  unfold LambdaService.processMessage, bind, now, Parser.extractAttachments.
  cbv beta iota. rewrite (uploadParts_run _ _ _ Hup).
  cbn -[String.append polled]. rewrite <- app_assoc. repeat split.
Qed.

(** X20. What the poller announces passes the validators of ingestion
    exactly when the mail has a body: the sender and the file names have
    defaults, so with a non-empty id, content types and upload URLs the only
    thing that can be missing is the body.  A mail without text (an
    attachment-only mail, say) is announced all the same, and ingestion then
    refuses it with a validation error on [body], storing nothing. *)
Theorem polled_mail_valid_iff_body
    (parsed : ParsedMail) (randomId : string) (urls : list string) (w : World) :
  Forall2 (fun part url => uploaded (clock w) part = Resolved url)
          (attachments parsed) urls ->
  required randomId = true ->
  Forall (fun part => required (contentType part) = true) (attachments parsed) ->
  Forall (fun url => required url = true) urls ->
  let ingestion :=
    polled parsed randomId (clock w) (entriesOf (attachments parsed) urls) in
  published "submission.found" (fst (processMessage parsed randomId w))
  = published "submission.found" w ++ [PubPayload ingestion] /\
  valid_event ingestion = required (extractBody parsed) /\
  (extractBody parsed = EmptyString ->
   forall w2, IngestionService.ingestion ingestion w2
              = (w2, Rejected (ValidationError "body"))).
Proof.
  intros Hup Hid Hct Hurl ingestion.
  destruct (processMessage_run parsed randomId urls w Hup) as (_ & Hk & _).
  cbv zeta in Hk. fold ingestion in Hk. split; [|split].
  - unfold published. rewrite Hk, filter_app, map_app. reflexivity.
  - unfold valid_event, ingestion, polled.
    cbn [Payload.metadata Metadata.sender Metadata.body Metadata.id
         Metadata.attachments].
    rewrite Hid.
    assert (Hs : required (Js.orElse (from_text parsed) "Unknown Sender") = true)
      by (destruct (from_text parsed) as [[|c s]|]; reflexivity).
    rewrite Hs.
    assert (Hv : forallb AttachmentModel.entry_valid
                   (entriesOf (attachments parsed) urls) = true).
    { clear - Hup Hct Hurl. unfold entriesOf.
      induction Hup as [|part url parts us _ _ IH]; [reflexivity|].
      inversion Hct; subst. inversion Hurl; subst. simpl.
      rewrite IH by assumption.
      unfold AttachmentModel.entry_valid, entryOf. simpl.
      assert (Hf : required (Js.orElse (part_filename part) "untitled") = true)
        by (destruct (part_filename part) as [[|c s]|]; reflexivity).
      rewrite Hf. now rewrite H1, H3. }
    rewrite Hv. now rewrite !andb_true_r.
  - intros Hbody w2. unfold IngestionService.ingestion, bind,
      SubmissionModel.create, ingestion, polled.
    cbn [Payload.metadata Metadata.sender Metadata.body Metadata.id].
    rewrite Hbody.
    now destruct (from_text parsed) as [[|c s]|].
Qed.

(** X21. The poller's own envelope never reaches the submission it is
    about: its payload names the constant [imap done] as submission id, so on
    any store without a Submission of that id the reconciler handles it as a
    no-op, also when a Submission with the mail's id is already there. *)
Theorem imap_done_envelope_is_noop
    (parsed : ParsedMail) (randomId : string) (stamp : N)
    (atts : list Attachment.t) (w : World) :
  count_id "imap done" w = 0%nat ->
  let ingestion := polled parsed randomId stamp atts in
  EventPipelineService.update (Event.mk randomId "IMAP_DONE" ingestion) w
  = (w, Resolved tt).
Proof.
  intros Hnone ingestion. rewrite update_run.
  assert (Hmiss : addressed (Event.mk randomId "IMAP_DONE" ingestion) w = None).
  { unfold addressed, target, ingestion, polled.
    cbn [Event.data Payload.metadata Metadata.submission_id].
    unfold count_id in Hnone. apply length_zero_iff_nil in Hnone.
    induction (submissions w) as [|d ds IH]; [reflexivity|].
    simpl in *. destruct (SubmissionModel.has_id _ d); [discriminate|auto]. }
  rewrite Hmiss, update_first_miss by exact Hmiss.
  now rewrite World_eta.
Qed.

End Poller.

(* ------------------------------------------------------------------ *)
(** ** Query interface *)

Lemma find_map {A B} (p : B -> bool) (f : A -> B) (l : list A) :
  find p (map f l) = option_map f (find (fun x => p (f x)) l).
Proof.
  induction l as [|x l IH]; simpl; [reflexivity|].
  destruct (p (f x)); [reflexivity|exact IH].
Qed.

(** X22. The query endpoint shows what the reconciler wrote: after an
    envelope for a linked submission has been reconciled, [handle] returns one
    view per Submission, in store order and without changing the store, and
    the view of the addressed Submission has the envelope's kind as status
    and the envelope's attachment list as its populated attachments (both
    documents with the time of the update as their [updatedAt]). *)
Theorem handle_shows_reconciled
    (event : Event.t) (w : World) (sub : Submission.t) (ref : ObjectId)
    (doc : AttachmentSet.t) :
  addressed event w = Some sub ->
  Submission.attachments sub = Some ref ->
  find (AttachmentModel.has_oid ref) (attachment_sets w) = Some doc ->
  let w' := fst (EventPipelineService.update event w) in
  exists views,
    ProxyService.handle w' = (w', Resolved views) /\
    map ProxyService.submission views = submissions w' /\
    find (fun v => SubmissionModel.has_id (target event)
                     (ProxyService.submission v)) views
    = Some (ProxyService.mkPopulated
              (Submission.touch (clock w)
                 (Submission.set_status (Event.message event) sub))
              (Some (AttachmentSet.touch (clock w)
                       (AttachmentSet.set_attachments
                          (Payload.attachments (Event.data event)) doc)))).
Proof.
  intros Hsub Href Hdoc w'.
  exists (map (ProxyService.populate (attachment_sets w')) (submissions w')).
  split; [reflexivity|]. split.
  - rewrite map_map. apply map_id.
  - rewrite find_map. cbn [ProxyService.populate ProxyService.submission].
    subst w'. rewrite update_run, Hsub, Href.
    cbn [fst submissions attachment_sets].
    change (fun x => SubmissionModel.has_id (target event) x)
      with (SubmissionModel.has_id (target event)).
    rewrite find_update_first by reflexivity.
    unfold addressed in Hsub. rewrite Hsub. cbn [option_map].
    unfold ProxyService.populate, restatus.
    cbn [Submission.attachments Submission.set_status Submission.touch].
    rewrite Href.
    rewrite find_update_first by reflexivity.
    now rewrite Hdoc.
Qed.

(* ------------------------------------------------------------------ *)
(** ** The stages in sequence *)

Lemma find_snoc {A} (p : A -> bool) (l : list A) (x : A) :
  find p (l ++ [x]) =
  match find p l with
  | Some y => Some y
  | None => if p x then Some x else None
  end.
Proof.
  induction l as [|y l IH]; simpl; [reflexivity|].
  destruct (p y); [reflexivity|exact IH].
Qed.

Lemma Forall2_compose {A B C} (R : A -> B -> Prop) (S : B -> C -> Prop)
    (l1 : list A) (l2 : list B) (l3 : list C) :
  Forall2 R l1 l2 -> Forall2 S l2 l3 ->
  Forall2 (fun a c => exists b, R a b /\ S b c) l1 l3.
Proof.
  intros H. revert l3. induction H as [|a b l1 l2 Hab _ IH]; intros l3 H3;
    inversion H3; subst; constructor; eauto.
Qed.

Lemma linked_frame (i : string) (ref : ObjectId) (w w' : World) :
  submissions w' = submissions w ->
  attachment_sets w' = attachment_sets w ->
  linked i ref w -> linked i ref w'.
Proof.
  intros Hs Ha (sub & old & Hsub & Href & Hold).
  exists sub, old. unfold stored in *. now rewrite Hs, Ha.
Qed.

(** Reconciling an envelope for a linked submission keeps it linked, sets
    its status and stores the envelope's list. *)
Lemma update_linked (event : Event.t) (w : World) (i : string) (ref : ObjectId) :
  target event = i -> linked i ref w ->
  let w' := fst (EventPipelineService.update event w) in
  linked i ref w' /\
  stored ref w' = Some (Payload.attachments (Event.data event)) /\
  exists sub',
    find (SubmissionModel.has_id i) (submissions w') = Some sub' /\
    Submission.status sub' = Event.message event /\
    Submission.attachments sub' = Some ref.
Proof.
  intros Ht (sub & old & Hsub & Href & Hold) w'.
  assert (Haddr : addressed event w = Some sub)
    by (unfold addressed; now rewrite Ht).
  assert (Hst : stored ref w' = Some (Payload.attachments (Event.data event)))
    by (eapply update_stores_payload; eassumption).
  assert (Hnew : find (SubmissionModel.has_id i) (submissions w')
                 = Some (restatus event (clock w) sub)).
  { subst w'. rewrite update_run. cbn [fst submissions]. rewrite Ht.
    rewrite find_update_first by reflexivity. now rewrite Hsub. }
  split; [|split; [exact Hst|]].
  - eexists _, _. split; [exact Hnew|]. split; [exact Href|exact Hst].
  - eexists. split; [exact Hnew|]. split; [reflexivity|exact Href].
Qed.

Lemma count_id_zero_find (i : string) (w : World) :
  count_id i w = 0%nat -> find (SubmissionModel.has_id i) (submissions w) = None.
Proof.
  unfold count_id. intros H. apply length_zero_iff_nil in H.
  induction (submissions w) as [|d ds IH]; [reflexivity|].
  simpl in *. destruct (SubmissionModel.has_id i d); [discriminate|auto].
Qed.

Lemma ingestion_linked (message : Payload.t) (w : World) :
  valid_event message = true ->
  Metadata.attachments (Payload.metadata message) <> [] ->
  count_id (Metadata.id (Payload.metadata message)) w = 0%nat ->
  linked (Metadata.id (Payload.metadata message)) (N.succ (next_oid w))
         (fst (IngestionService.ingestion message w)).
Proof.
  intros Hv Hne Hfresh.
  pose proof (ingestion_fresh_nonempty_done message w Hv Hne Hfresh) as Hsubs.
  destruct (ingestion_run message w Hv) as (_ & _ & Hsets). cbv zeta in Hsets.
  destruct (Metadata.attachments (Payload.metadata message)) as [|a l] eqn:Hl;
    [contradiction|].
  pose proof (count_id_zero_find _ _ Hfresh) as Hnone.
  assert (Hst : exists old,
            stored (N.succ (next_oid w))
                   (fst (IngestionService.ingestion message w)) = Some old).
  { unfold stored. rewrite Hsets, find_snoc.
    destruct (find _ (attachment_sets w)); [now eexists|].
    unfold AttachmentModel.has_oid. cbn [AttachmentSet._id].
    rewrite N.eqb_refl. now eexists. }
  destruct Hst as (old & Hst).
  eexists _, old. rewrite Hsubs, find_snoc, Hnone.
  unfold SubmissionModel.has_id at 1. cbn [Submission.id
    Submission.set_attachments_status created]. rewrite String.eqb_refl.
  split; [reflexivity|]. split; [reflexivity|exact Hst].
Qed.

Section Pipeline.

Variable axios_get : string -> Timed Buffer.
Variable Tesseract_recognize : Buffer -> Timed string.
Variable pdfParse : Buffer -> Timed string.
Variable generateContent : string -> Settled GenResponse.
Variable JSON_parse : string -> option Parsed.

Local Abbreviation processAttachment :=
  (OcrService.processAttachment axios_get Tesseract_recognize pdfParse).
Local Abbreviation processOcr :=
  (OcrService.processOcr axios_get Tesseract_recognize pdfParse).
Local Abbreviation annotated :=
  (OcrService.annotated axios_get Tesseract_recognize pdfParse).
Local Abbreviation classify :=
  (ClassificationService.classify generateContent JSON_parse).
Local Abbreviation classified_ok :=
  (ClassificationService.classified_ok generateContent JSON_parse).
Local Abbreviation processClassification :=
  (ClassificationService.processClassification generateContent JSON_parse).

Lemma processOcr_run (message : Payload.t) (w : World) :
  Forall (fun att => processAttachment att <> Pending)
         (Payload.attachments message) ->
  exists w' out,
    processOcr message w = (w', Resolved tt) /\
    kafka w' =
      kafka w
      ++ [("event.pipeline",
           PubEvent (Event.mk (Metadata.id (Payload.metadata message))
                              "ocr_completed"
                              (Payload.set_attachments message out)));
          ("classification.init",
           PubPayload (Payload.set_attachments message out))] /\
    Forall2 annotated (Payload.attachments message) out /\
    submissions w' = submissions w /\
    attachment_sets w' = attachment_sets w.
Proof.
  intros Hsettle.
  destruct (Promise_all_map processAttachment (Payload.attachments message))
    as (results & Hall & Hres).
  { eapply Forall_impl; [|exact Hsettle]. intros att Hp.
    destruct (processAttachment_cases axios_get Tesseract_recognize pdfParse att)
      as [Hpend|(att' & r & Hr)]; [contradiction|eauto]. }
  eexists _, (map fst results).
  unfold OcrService.processOcr, tryCatchT, bind, await.
  rewrite Hall. cbn -[String.append].
  repeat split.
  - rewrite <- app_assoc. reflexivity.
  - clear Hall Hsettle. induction Hres as [|att [att' r] atts res H _ IH];
      simpl; constructor; [|exact IH].
    eapply processAttachment_annotated; exact H.
Qed.

(** X23. The stages in sequence.  Take a valid event with attachments and a
    fresh id, engines that always answer, and let every stage consume what
    the stage before it published, each envelope being reconciled before the
    next stage runs.  Then every stage completes, the Submission ends with
    the status [classification_completed], still linked to the Attachment-set
    created at ingestion, and that set holds one entry per ingested
    attachment, in order, with its file name, content type and location and
    the classification and confidence of the engine's answer for its text
    (the confidence as it is written on the channel). *)
Theorem pipeline_end_to_end (message : Payload.t) (w : World) :
  valid_event message = true ->
  Metadata.attachments (Payload.metadata message) <> [] ->
  count_id (Metadata.id (Payload.metadata message)) w = 0%nat ->
  (forall att, processAttachment att <> Pending) ->
  (forall text, classified_ok text = true) ->
  let i := Metadata.id (Payload.metadata message) in
  let ref := N.succ (next_oid w) in
  let w1 := fst (IngestionService.ingestion message w) in
  exists event1 payload1 w3 event2 payload2 w5 event3 sub final,
    kafka w1 = kafka w ++ [("event.pipeline", PubEvent event1);
                           ("ocr.init", PubPayload payload1)] /\
    let w2 := fst (EventPipelineService.update event1 w1) in
    processOcr payload1 w2 = (w3, Resolved tt) /\
    kafka w3 = kafka w2 ++ [("event.pipeline", PubEvent event2);
                            ("classification.init", PubPayload payload2)] /\
    let w4 := fst (EventPipelineService.update event2 w3) in
    processClassification payload2 w4 = (w5, Resolved tt) /\
    kafka w5 = kafka w4 ++ [("event.pipeline", PubEvent event3)] /\
    let w6 := fst (EventPipelineService.update event3 w5) in
    find (SubmissionModel.has_id i) (submissions w6) = Some sub /\
    Submission.status sub = "classification_completed" /\
    Submission.attachments sub = Some ref /\
    stored ref w6 = Some final /\
    Forall2 (fun att entry =>
               Attachment.filename entry
               = Some (Js.nullish (Attachment.filename att) EmptyString) /\
               Attachment.content_type entry = Attachment.content_type att /\
               Attachment.url entry = Attachment.url att /\
               exists type confidence,
                 classify (ClassificationService.asked entry)
                 = Resolved (ParsedValue type confidence) /\
                 Attachment.classification entry = type /\
                 Attachment.confidence entry = onWire confidence)
            (Metadata.attachments (Payload.metadata message)) final.
Proof.
  intros Hv Hne Hfresh Hocr Hcls i ref w1.
  pose proof (ingestion_linked message w Hv Hne Hfresh) as L1. fold i ref w1 in L1.
  destruct (ingestion_channel message w Hv) as (K1 & _). cbv zeta in K1.
  fold i w1 in K1.
  set (payload1 := forwarded message (clock w)) in *.
  set (event1 := Event.mk i "ingestion_completed" payload1) in *.
  destruct (update_linked event1 w1 i ref eq_refl L1) as (L2 & _ & _).
  set (w2 := fst (EventPipelineService.update event1 w1)) in *.
  destruct (processOcr_run payload1 w2) as (w3 & out2 & R3 & K3 & A3 & S3 & T3).
  { apply Forall_forall. intros att _. apply Hocr. }
  set (payload2 := Payload.set_attachments payload1 out2) in *.
  set (event2 := Event.mk (Metadata.id (Payload.metadata payload1))
                          "ocr_completed" payload2) in *.
  pose proof (linked_frame i ref w2 w3 S3 T3 L2) as L3.
  destruct (update_linked event2 w3 i ref eq_refl L3) as (L4 & _ & _).
  set (w4 := fst (EventPipelineService.update event2 w3)) in *.
  destruct (processClassification_emits generateContent JSON_parse payload2 w4)
    as (w5 & out3 & R5 & K5 & A5 & S5 & T5).
  { apply Forall_forall. intros file _. apply Hcls. }
  set (event3 := Event.mk (Metadata.id (Payload.metadata payload2))
                          "classification_completed"
                          (Payload.set_attachments payload2 out3)) in *.
  pose proof (linked_frame i ref w4 w5 S5 T5 L4) as L5.
  destruct (update_linked event3 w5 i ref eq_refl L5)
    as (_ & St6 & sub & F6 & Hstat & Hatt).
  exists event1, payload1, w3, event2, payload2, w5, event3, sub, out3.
  split; [exact K1|]. cbv zeta.
  split; [exact R3|]. split; [exact K3|].
  split; [exact R5|]. split; [exact K5|].
  split; [exact F6|]. split; [exact Hstat|]. split; [exact Hatt|].
  split; [exact St6|].
  pose proof (Forall2_compose _ _ _ _ _
                (Forall2_compose _ _ _ _ _
                   (normalize_fields
                      (Metadata.attachments (Payload.metadata message))) A3)
                A5) as Hchain.
  eapply Forall2_impl; [|exact Hchain].
  intros att entry (ocr & (sent & Hn & Ha) & (type & confidence & Hc & ->)).
  destruct Hn as (Hf & Hct & Hu & _).
  destruct Ha as (Hf' & Hct' & Hu' & _).
  cbn [Attachment.filename Attachment.content_type Attachment.url
       Attachment.classification Attachment.confidence
       Attachment.set_confidence Attachment.set_classification].
  split; [congruence|]. split; [congruence|]. split; [congruence|].
  exists type, confidence. split; [exact Hc|]. split; reflexivity.
Qed.

End Pipeline.

(* ------------------------------------------------------------------ *)
(** ** The further statements at work on the sample data *)

Lemma reconcile_last_envelope_wins_witness :
  reconcile [MoreSamples.envelope "classification_completed" [Samples.notesTxt];
             MoreSamples.envelope "ocr_completed" [Samples.contractPdf];
             MoreSamples.envelope "ingestion_completed" [Samples.invoicePng]]
            MoreSamples.twoWorld
  = reconcile [MoreSamples.envelope "ingestion_completed" [Samples.invoicePng]]
              MoreSamples.twoWorld.
Proof.
  apply (reconcile_last_envelope_wins
           [MoreSamples.envelope "classification_completed" [Samples.notesTxt];
            MoreSamples.envelope "ocr_completed" [Samples.contractPdf]]).
  repeat constructor.
Defined.

Lemma update_overwrites_status_witness :
  let late := MoreSamples.envelope "ingestion_completed" [Samples.invoicePng] in
  option_map Submission.status
    (addressed late (fst (EventPipelineService.update late MoreSamples.twoWorld)))
  = Some "ingestion_completed".
Proof.
  intros late.
  exact (proj2 (update_overwrites_status late MoreSamples.twoWorld
                  (Submission.mk 1%N "a@b.com" "see attached" 1000%N "id-1"
                                 (Some 2%N) "classification_completed"
                                 1000%N 1900%N)
                  eq_refl)).
Defined.

Lemma ingestion_announces_witness :
  map fst (kafka (fst (IngestionService.ingestion
                         (Samples.mail [Samples.invoicePng])
                         Samples.emptyWorld)))
  = ["event.pipeline"; "ocr.init"].
Proof.
  destruct (ingestion_announces (Samples.mail [Samples.invoicePng])
              Samples.emptyWorld eq_refl) as (Hk & _).
  rewrite Hk. reflexivity.
Defined.

Lemma ingestion_refuses_invalid_submission_witness :
  exists path,
    IngestionService.ingestion
      (Payload.mk (Metadata.mk "Invoice" "a@b.com" EmptyString 900%N "id-1"
                               [Samples.invoicePng] "imap done"))
      MoreSamples.twoWorld
    = (MoreSamples.twoWorld, Rejected (ValidationError path)).
Proof.
  apply ingestion_refuses_invalid_submission. reflexivity.
Defined.

Lemma ingestion_invalid_attachment_half_done_witness :
  let nameless :=
    Attachment.mk None "image/png" "https://files/x.png" None None None in
  let run := IngestionService.ingestion (Samples.mail [nameless])
                                        Samples.emptyWorld in
  snd run = Rejected (ValidationError "attachments.0.filename") /\
  map Submission.status (submissions (fst run)) = ["ingestion in progress"] /\
  attachment_sets (fst run) = [] /\ kafka (fst run) = [].
Proof.
  intros nameless run.
  destruct (ingestion_invalid_attachment_half_done (Samples.mail [nameless])
              Samples.emptyWorld eq_refl eq_refl)
    as ((i & a & field & Hn & _ & Hm & Hrej) & Hs & Ha & Hk & _).
  fold run in Hrej, Hs, Ha, Hk. rewrite Hrej, Hs, Ha, Hk.
  split; [|repeat split].
  destruct i as [|[|i]]; simpl in Hn; try discriminate.
  injection Hn as <-. injection Hm as <-. reflexivity.
Defined.

Lemma extractTextFromImage_budget_witness :
  OcrService.extractTextFromImage Samples.axios_get Samples.Tesseract_recognize
    "https://files/invoice.png" = Resolved "INVOICE 42" /\
  OcrService.extractTextFromImage Samples.axios_get Samples.slowTesseract
    "https://files/invoice.png" = Rejected (JsError "OCR Timeout").
Proof.
  split.
  - exact (extractTextFromImage_budget Samples.axios_get
             Samples.Tesseract_recognize "https://files/invoice.png"
             20%N 500%N _ _ eq_refl eq_refl).
  - exact (extractTextFromImage_budget Samples.axios_get Samples.slowTesseract
             "https://files/invoice.png" 20%N 90000%N _ _ eq_refl eq_refl).
Defined.

Lemma extractTextFromImage_timeout_witness :
  OcrService.extractTextFromImage (fun _ => Never) Samples.Tesseract_recognize
    "https://files/invoice.png" = Rejected (JsError "OCR Timeout").
Proof.
  apply extractTextFromImage_timeout; discriminate.
Defined.

Lemma processOcr_pending_witness :
  OcrService.processOcr Samples.axios_get Samples.Tesseract_recognize
    Samples.pdfParse
    (Samples.mail [Samples.invoicePng; Samples.contractPdf; Samples.notesTxt])
    Samples.emptyWorld
  = (Samples.emptyWorld, Pending).
Proof.
  apply (processOcr_pending Samples.axios_get Samples.Tesseract_recognize
           Samples.pdfParse _ _ Samples.contractPdf).
  - right. left. reflexivity.
  - reflexivity.
Defined.

Lemma processClassification_null_aborts_witness :
  ClassificationService.processClassification MoreSamples.nullEngine
    Samples.JSON_parse (Samples.mail [Samples.invoicePng; Samples.notesTxt])
    Samples.emptyWorld
  = (Samples.emptyWorld,
     Rejected (InternalServerErrorException "Classification processing failed")).
Proof.
  apply (processClassification_null_aborts MoreSamples.nullEngine
           Samples.JSON_parse _ _ Samples.notesTxt).
  - right. left. reflexivity.
  - reflexivity.
Defined.

Lemma processClassification_pending_witness :
  ClassificationService.processClassification MoreSamples.silentEngine
    Samples.JSON_parse (Samples.mail [Samples.invoicePng]) Samples.emptyWorld
  = (Samples.emptyWorld, Pending).
Proof.
  apply (processClassification_pending MoreSamples.silentEngine
           Samples.JSON_parse _ _ Samples.invoicePng).
  - left. reflexivity.
  - reflexivity.
  - repeat constructor. discriminate.
Defined.

Lemma processClassification_keeps_entries_witness :
  exists w' (out : list Attachment.t),
    ClassificationService.processClassification Samples.generateContent
      Samples.JSON_parse
      (Samples.mail [Attachment.set_text Samples.invoicePng "INVOICE 42";
                     Samples.notesTxt])
      Samples.emptyWorld = (w', Resolved tt) /\
    length out = 2%nat.
Proof.
  destruct (processClassification_keeps_entries Samples.generateContent
              Samples.JSON_parse
              (Samples.mail [Attachment.set_text Samples.invoicePng "INVOICE 42";
                             Samples.notesTxt])
              Samples.emptyWorld) as (w' & out & Hrun & _ & Hlen & _).
  - repeat constructor.
  - exists w', out. split; [exact Hrun|exact Hlen].
Defined.

Lemma stripFences_unwraps_witness :
  ClassificationService.stripFences Samples.fencedAnswer = Samples.invoiceJson.
Proof.
  exact (stripFences_unwraps "json" Samples.invoiceJson eq_refl eq_refl eq_refl).
Defined.

Lemma extractAttachments_uploads_all_witness :
  Parser.extractAttachments MoreSamples.upload_stream MoreSamples.htmlMail
    Samples.emptyWorld
  = (Samples.emptyWorld,
     Resolved
       [Attachment.mk (Some "scan.png") "image/png"
                      "https://cdn/image/emails/1000-scan.png" None None None;
        Attachment.mk (Some "untitled") "application/pdf"
                      "https://cdn/raw/emails/1000-untitled" None None None]).
Proof.
  refine (proj1 (extractAttachments_uploads_all MoreSamples.upload_stream
                   MoreSamples.htmlMail
                   ["https://cdn/image/emails/1000-scan.png";
                    "https://cdn/raw/emails/1000-untitled"]
                   Samples.emptyWorld _)).
  repeat constructor.
Defined.

Lemma extractAttachments_fails_fast_witness :
  Parser.extractAttachments MoreSamples.upload_stream MoreSamples.brokenMail
    Samples.emptyWorld
  = (Samples.emptyWorld, Rejected (JsError "Empty file")).
Proof.
  apply (extractAttachments_fails_fast MoreSamples.upload_stream
           MoreSamples.brokenMail [MoreSamples.scanPart]
           [MoreSamples.unnamedPart] MoreSamples.brokenPart
           ["https://cdn/image/emails/1000-scan.png"]).
  - reflexivity.
  - repeat constructor.
  - reflexivity.
Defined.

Lemma polled_mail_valid_iff_body_witness :
  valid_event
    (polled MoreSamples.htmlMail "0f3a" 1000%N
       (entriesOf (Parser.attachments MoreSamples.htmlMail)
          ["https://cdn/image/emails/1000-scan.png";
           "https://cdn/raw/emails/1000-untitled"])) = true /\
  IngestionService.ingestion
    (polled MoreSamples.bareMail "0f3a" 1000%N
       (entriesOf (Parser.attachments MoreSamples.bareMail)
          ["https://cdn/image/emails/1000-scan.png"]))
    MoreSamples.twoWorld
  = (MoreSamples.twoWorld, Rejected (ValidationError "body")).
Proof.
  split.
  - destruct (polled_mail_valid_iff_body MoreSamples.upload_stream
                MoreSamples.htmlMail "0f3a"
                ["https://cdn/image/emails/1000-scan.png";
                 "https://cdn/raw/emails/1000-untitled"]
                Samples.emptyWorld) as (_ & Hvalid & _);
      [repeat constructor..|].
    refine (eq_trans Hvalid _). reflexivity.
  - destruct (polled_mail_valid_iff_body MoreSamples.upload_stream
                MoreSamples.bareMail "0f3a"
                ["https://cdn/image/emails/1000-scan.png"]
                Samples.emptyWorld) as (_ & _ & Hrefused);
      [repeat constructor..|].
    apply Hrefused. reflexivity.
Defined.

Lemma imap_done_envelope_is_noop_witness :
  EventPipelineService.update
    (Event.mk "id-1" "IMAP_DONE"
       (polled MoreSamples.htmlMail "id-1" 1000%N [Samples.invoicePng]))
    MoreSamples.twoWorld
  = (MoreSamples.twoWorld, Resolved tt).
Proof.
  apply imap_done_envelope_is_noop. reflexivity.
Defined.

Lemma handle_shows_reconciled_witness :
  let event := MoreSamples.envelope "ocr_completed" [Samples.contractPdf] in
  let w' := fst (EventPipelineService.update event Samples.linkedWorld) in
  exists views,
    ProxyService.handle w' = (w', Resolved views) /\
    map (fun v => Submission.status (ProxyService.submission v)) views
    = ["ocr_completed"].
Proof.
  intros event w'.
  destruct (handle_shows_reconciled event Samples.linkedWorld
              (Submission.mk 1%N "a@b.com" "see attached" 1000%N "id-1"
                             (Some 2%N) "ingestion done" 1000%N 1000%N)
              2%N (AttachmentSet.mk 2%N [Samples.invoicePng] 1000%N 1000%N)
              eq_refl eq_refl eq_refl) as (views & Hrun & Hsubs & _).
  exists views. split; [exact Hrun|].
  rewrite <- (map_map ProxyService.submission Submission.status), Hsubs.
  reflexivity.
Defined.

Lemma sample_engines_settle (att : Attachment.t) :
  OcrService.processAttachment Samples.axios_get Samples.Tesseract_recognize
    Samples.goodPdfParse att <> Pending.
Proof.
  unfold OcrService.processAttachment, tryCatch, bindS.
  destruct (Js.includes "image" _).
  - pose proof (extractTextFromImage_settles Samples.axios_get
                  Samples.Tesseract_recognize (Attachment.url att)) as Hs.
    destruct (OcrService.extractTextFromImage _ _ _);
      [discriminate|discriminate|contradiction].
  - destruct (Js.includes "pdf" _); discriminate.
Qed.

Lemma sample_engine_classifies (text : string) :
  ClassificationService.classified_ok Samples.generateContent
    Samples.JSON_parse text = true.
Proof.
  unfold ClassificationService.classified_ok, ClassificationService.classify,
    Samples.generateContent.
  destruct (Js.includes "INVOICE" _); [reflexivity|].
  destruct (Js.includes "CONTRACT" _); reflexivity.
Qed.

Lemma pipeline_end_to_end_witness :
  exists sub final,
    Submission.status sub = "classification_completed" /\
    Submission.attachments sub = Some 2%N /\
    map Attachment.content_type final = ["image/png"; "text/plain"].
Proof.
  destruct (pipeline_end_to_end Samples.axios_get Samples.Tesseract_recognize
              Samples.goodPdfParse Samples.generateContent Samples.JSON_parse
              (Samples.mail [Samples.invoicePng; Samples.notesTxt])
              Samples.emptyWorld eq_refl)
    as (event1 & payload1 & w3 & event2 & payload2 & w5 & event3 & sub & final
        & _ & _ & _ & _ & _ & _ & Hstatus & Hlink & _ & Hentries).
  - discriminate.
  - reflexivity.
  - exact sample_engines_settle.
  - exact sample_engine_classifies.
  - exists sub, final. split; [exact Hstatus|]. split; [exact Hlink|].
    inversion Hentries as [|a1 e1 l1 f1 (_ & H1 & _) Hrest]; subst.
    inversion Hrest as [|a2 e2 l2 f2 (_ & H2 & _) Hnil]; subst.
    inversion Hnil; subst. simpl. now rewrite H1, H2.
Defined.

(* ------------------------------------------------------------------ *)
(** ** Reconciler endpoint *)

Section Handler.
Import EventPipelineController.

(** Left to itself, a started update makes the three store calls of
    [EventPipelineService.update] and ends where that ends. *)
Lemma run_alone (e : Event.t) (w : World) :
  run [0; 0; 0]%nat (fst (update e (w, [])))
  = (fst (EventPipelineService.update e w), [mkRunning e Finished]).
Proof.
  rewrite update_run. unfold run, update, addressed, target.
  cbn [fst snd app fold_left step advance progress event
       SubmissionModel.updateOne SubmissionModel.findOne submissions].
  rewrite find_update_first by reflexivity.
  destruct (find _ (submissions w)) as [sub|]; cbn [option_map].
  - change (Submission.attachments
              (Submission.touch (clock w)
                 (Submission.set_status (Event.message e) sub)))
      with (Submission.attachments sub).
    destruct (Submission.attachments sub); reflexivity.
  - reflexivity.
Qed.

Lemma advance_started (e : Event.t) (w : World) :
  advance (mkRunning e Started) w
  = (fst (SubmissionModel.updateOne (target e)
            (Submission.set_status (Event.message e)) w),
     mkRunning e StatusSet).
Proof. reflexivity. Qed.

Lemma advance_found_ref (e : Event.t) (w : World) (sub : Submission.t)
    (ref : ObjectId) :
  addressed e w = Some sub ->
  Submission.attachments sub = Some ref ->
  advance (mkRunning e StatusSet) w = (w, mkRunning e (Found ref)).
Proof.
  unfold advance, addressed, target, SubmissionModel.findOne.
  cbn [progress event snd]. now intros -> ->.
Qed.

Lemma advance_found (e : Event.t) (ref : ObjectId) (w : World) :
  advance (mkRunning e (Found ref)) w
  = (fst (AttachmentModel.updateOne ref
            (Payload.attachments (Event.data e)) w),
     mkRunning e Finished).
Proof. reflexivity. Qed.

(** X30. The handler does not wait for the update it starts, so the store
    calls of two updates can interleave.  The handler resolves at once and
    leaves the stores as they are; an update left to itself then does what
    [EventPipelineService.update] does; but for two envelopes A and B for the
    same linked submission, when the store calls happen in the order A1 B1
    A2 B2 B3 A3, both updates finish and the Submission ends with the kind
    of B as its status while the Attachment-set holds the list of A. *)
Theorem unawaited_updates_interleave
    (eventA eventB : Event.t) (w : World) (sub : Submission.t)
    (ref : ObjectId) (old : list Attachment.t) :
  target eventA = target eventB ->
  addressed eventA w = Some sub ->
  Submission.attachments sub = Some ref ->
  stored ref w = Some old ->
  let st1 := fst (update eventA (w, [])) in
  let st2 := fst (update eventB st1) in
  snd (update eventA (w, [])) = Resolved tt /\
  snd (update eventB st1) = Resolved tt /\
  fst st2 = w /\
  run [0; 0; 0]%nat st1
  = (fst (EventPipelineService.update eventA w), [mkRunning eventA Finished]) /\
  let final := run [0; 1; 0; 1; 1; 0]%nat st2 in
  forallb finished (snd final) = true /\
  option_map Submission.status (addressed eventB (fst final))
  = Some (Event.message eventB) /\
  stored ref (fst final) = Some (Payload.attachments (Event.data eventA)).
Proof.
  intros Ht Hsub Href Hold st1 st2.
  split; [reflexivity|]. split; [reflexivity|]. split; [reflexivity|].
  split; [apply run_alone|].
  set (w1 := fst (SubmissionModel.updateOne (target eventA)
                    (Submission.set_status (Event.message eventA)) w)).
  set (w2 := fst (SubmissionModel.updateOne (target eventB)
                    (Submission.set_status (Event.message eventB)) w1)).
  set (w3 := fst (AttachmentModel.updateOne ref
                    (Payload.attachments (Event.data eventB)) w2)).
  set (w4 := fst (AttachmentModel.updateOne ref
                    (Payload.attachments (Event.data eventA)) w3)).
  assert (Hfound : forall e, target e = target eventB ->
            addressed e w2 = Some (restatus eventB (clock w) sub)).
  { intros e He. unfold addressed. rewrite He. subst w2 w1.
    unfold SubmissionModel.updateOne.
    cbn [fst submissions clock]. rewrite Ht.
    rewrite update_first_absorb by reflexivity.
    rewrite find_update_first by reflexivity.
    unfold addressed in Hsub. rewrite Ht in Hsub. now rewrite Hsub. }
  assert (Hrun : run [0; 1; 0; 1; 1; 0]%nat st2
                 = (w4, [mkRunning eventA Finished; mkRunning eventB Finished])).
  { subst st2 st1. unfold run, update.
    cbn [fold_left fst snd app step].
    rewrite advance_started. fold w1. cbn [fst snd step].
    rewrite advance_started. fold w2. cbn [fst snd step].
    rewrite (advance_found_ref eventA w2 _ ref (Hfound eventA Ht) Href).
    cbn [fst snd step].
    rewrite (advance_found_ref eventB w2 _ ref (Hfound eventB eq_refl) Href).
    cbn [fst snd step].
    rewrite advance_found. fold w3. cbn [fst snd step].
    rewrite advance_found. reflexivity. }
  cbv zeta. rewrite Hrun. cbn [fst snd].
  split; [reflexivity|]. split.
  - unfold addressed. subst w4 w3. cbn [fst submissions AttachmentModel.updateOne].
    fold (addressed eventB w2). now rewrite Hfound.
  - subst w4 w3 w2 w1. unfold stored, AttachmentModel.updateOne,
      SubmissionModel.updateOne.
    cbn [fst attachment_sets clock].
    rewrite update_first_absorb by reflexivity.
    rewrite find_update_first by reflexivity.
    unfold stored in Hold.
    destruct (find _ (attachment_sets w)); [reflexivity|discriminate].
Qed.

End Handler.

Lemma unawaited_updates_interleave_witness :
  let eventA := MoreSamples.envelope "ocr_completed" [Samples.contractPdf] in
  let eventB :=
    MoreSamples.envelope "classification_completed" [Samples.notesTxt] in
  let st2 :=
    fst (EventPipelineController.update eventB
           (fst (EventPipelineController.update eventA
                   (Samples.linkedWorld, [])))) in
  let final := EventPipelineController.run [0; 1; 0; 1; 1; 0]%nat st2 in
  option_map Submission.status (addressed eventB (fst final))
  = Some "classification_completed" /\
  stored 2%N (fst final) = Some [Samples.contractPdf].
Proof.
  intros eventA eventB st2 final.
  destruct (unawaited_updates_interleave eventA eventB Samples.linkedWorld
              (Submission.mk 1%N "a@b.com" "see attached" 1000%N "id-1"
                             (Some 2%N) "ingestion done" 1000%N 1000%N)
              2%N [Samples.invoicePng] eq_refl eq_refl eq_refl eq_refl)
    as (_ & _ & _ & _ & _ & Hstatus & Hstored).
  split; [exact Hstatus|exact Hstored].
Defined.

(* ------------------------------------------------------------------ *)
(** ** Kafka clients *)

Section KafkaClients.
Import KafkaService.

Variable reachable : Client -> bool.

Local Abbreviation getProducer := (getProducer reachable).
Local Abbreviation createConsumer := (createConsumer reachable).

(** X24. The producer is made and connected once: after a call of
    [getProducer] that resolved, every further call returns the same producer
    and changes nothing; no other client is made, no other connection
    opened. *)
Theorem getProducer_connects_once (st st1 : t) (p : Client) :
  getProducer st = (st1, Resolved p) ->
  getProducer st1 = (st1, Resolved p) /\
  producer st1 = Some p /\
  (made st1 <= N.succ (made st))%N.
Proof.
  unfold KafkaService.getProducer.
  destruct (producer st) as [q|] eqn:Hp.
  - intros [= <- <-]. rewrite Hp. repeat split; try assumption; lia.
  - destruct (reachable (made st)); intros [= <- <-]; simpl.
    repeat split; lia.
Qed.

(** X25. A producer whose connection failed is kept all the same: the field
    is assigned before [connect] is awaited, so when the first [connect]
    rejects, [getProducer] rejects once, and from the next call on it
    resolves with that same producer, which was never connected, without
    trying to connect again. *)
Theorem getProducer_failed_connect_sticks (st : t) :
  wellFormed st ->
  producer st = None ->
  reachable (made st) = false ->
  let st1 := fst (getProducer st) in
  (exists e, snd (getProducer st) = Rejected e) /\
  getProducer st1 = (st1, Resolved (made st)) /\
  ~ In (made st) (connected st1) /\
  connected (fst (getProducer st1)) = connected st.
Proof.
  intros Hwf Hnone Hdown. unfold KafkaService.getProducer.
  rewrite Hnone, Hdown. cbn [fst snd producer connected].
  split; [eauto|]. split; [reflexivity|]. split; [|reflexivity].
  intros Hin. unfold wellFormed in Hwf. rewrite Forall_forall in Hwf.
  specialize (Hwf _ Hin). lia.
Qed.

(** X26. Consumers are cached by group: once [createConsumer] has resolved
    for a group, a further call for that group returns the same consumer and
    changes nothing, and the consumers of the other groups are the ones they
    were. *)
Theorem createConsumer_cached (groupId : string) (st st1 : t) (c : Client) :
  createConsumer groupId st = (st1, Resolved c) ->
  createConsumer groupId st1 = (st1, Resolved c) /\
  forall other, other <> groupId ->
                get other (consumers st1) = get other (consumers st).
Proof.
  unfold KafkaService.createConsumer.
  destruct (get groupId (consumers st)) as [d|] eqn:Hg.
  - intros [= <- <-]. rewrite Hg. split; [reflexivity|auto].
  - destruct (reachable (made st)); intros [= <- <-].
    unfold get. cbn [consumers find fst]. rewrite String.eqb_refl.
    split; [reflexivity|]. intros other Hother.
    apply String.eqb_neq in Hother. rewrite String.eqb_sym in Hother.
    now rewrite Hother.
Qed.

(** X27. Unlike the producer, a consumer whose connection failed is not
    kept: the map is written only after [connect] has resolved, so the group
    stays without consumer and the next call makes a new client and connects
    that one. *)
Theorem createConsumer_failed_connect_retried (groupId : string) (st : t) :
  get groupId (consumers st) = None ->
  reachable (made st) = false ->
  reachable (N.succ (made st)) = true ->
  let st1 := fst (createConsumer groupId st) in
  (exists e, snd (createConsumer groupId st) = Rejected e) /\
  consumers st1 = consumers st /\
  snd (createConsumer groupId st1) = Resolved (N.succ (made st)) /\
  In (N.succ (made st)) (connected (fst (createConsumer groupId st1))).
Proof.
  intros Hnone Hdown Hup. unfold KafkaService.createConsumer.
  rewrite Hnone, Hdown. cbn [fst snd consumers made producer connected].
  rewrite Hnone, Hup. cbn [fst snd connected].
  split; [eauto|]. split; [reflexivity|]. split; [reflexivity|now left].
Qed.

End KafkaClients.

Lemma getProducer_connects_once_witness :
  let st := KafkaService.mk None [] 0%N [] in
  let st1 := fst (KafkaService.getProducer (fun _ => true) st) in
  KafkaService.getProducer (fun _ => true) st1 = (st1, Resolved 0%N).
Proof.
  intros st st1.
  exact (proj1 (getProducer_connects_once (fun _ => true) st st1 0%N eq_refl)).
Defined.

Lemma getProducer_failed_connect_sticks_witness :
  let st := KafkaService.mk None [] 0%N [] in
  let st1 := fst (KafkaService.getProducer (fun _ => false) st) in
  KafkaService.getProducer (fun _ => false) st1 = (st1, Resolved 0%N) /\
  KafkaService.connected st1 = [].
Proof.
  intros st st1.
  destruct (getProducer_failed_connect_sticks (fun _ => false) st)
    as (_ & Hnext & _ & _); [constructor|reflexivity|reflexivity|].
  split; [exact Hnext|reflexivity].
Defined.

Lemma createConsumer_cached_witness :
  let st := KafkaService.mk None [("ocr-consumer", 0%N)] 1%N [0%N] in
  let st1 := fst (KafkaService.createConsumer (fun _ => true) "reconciler" st) in
  KafkaService.createConsumer (fun _ => true) "reconciler" st1
  = (st1, Resolved 1%N) /\
  KafkaService.get "ocr-consumer" (KafkaService.consumers st1) = Some 0%N.
Proof.
  intros st st1.
  destruct (createConsumer_cached (fun _ => true) "reconciler" st st1 1%N eq_refl)
    as (Hagain & Hothers).
  split; [exact Hagain|]. rewrite Hothers; [reflexivity|discriminate].
Defined.

Lemma createConsumer_failed_connect_retried_witness :
  let down := fun c => negb (N.eqb c 0) in
  let st := KafkaService.mk None [] 0%N [] in
  let st1 := fst (KafkaService.createConsumer down "reconciler" st) in
  KafkaService.consumers st1 = [] /\
  snd (KafkaService.createConsumer down "reconciler" st1) = Resolved 1%N.
Proof.
  intros down st st1.
  destruct (createConsumer_failed_connect_retried down "reconciler" st)
    as (_ & Hkept & Hretry & _); try reflexivity.
  split; [exact Hkept|exact Hretry].
Defined.

(* ------------------------------------------------------------------ *)
(** ** Mailbox poller: the loop *)

Section PollLoop.
Import Poll.

Variable upload_stream : string -> string -> Buffer -> Settled string.

Local Abbreviation uploaded := (uploadOf upload_stream).
Local Abbreviation handleFetched := (handleFetched upload_stream).
Local Abbreviation fetchLoop := (fetchLoop upload_stream).
Local Abbreviation processMessages := (processMessages upload_stream).
Local Abbreviation announced := (announced upload_stream).
Local Abbreviation settles := (settles upload_stream).

Lemma uploadParts_outcome (parts : list Parser.Part) (w : World) :
  forallb (fun part => match uploaded (clock w) part with
                       | Pending => false
                       | _ => true
                       end) parts = true ->
  if forallb (fun part => match uploaded (clock w) part with
                          | Resolved _ => true
                          | _ => false
                          end) parts
  then exists urls,
         Forall2 (fun part url => uploaded (clock w) part = Resolved url)
                 parts urls
  else exists e, Parser.uploadParts upload_stream parts w = (w, Rejected e).
Proof.
  induction parts as [|part parts IH]; [exists []; constructor|].
  cbn [forallb]. intros Hs. apply andb_true_iff in Hs as [Hp Hs].
  specialize (IH Hs).
  cbn [Parser.uploadParts]. unfold bind at 1. rewrite uploadPart_run.
  destruct (uploaded (clock w) part) as [url|e|] eqn:Hu;
    [|cbn [andb]; eauto|discriminate].
  cbn [andb].
  destruct (forallb _ parts).
  - destruct IH as (urls & IH). exists (url :: urls). now constructor.
  - destruct IH as (e & IH). exists e. unfold bind. now rewrite IH.
Qed.

Lemma handleFetched_run (msg : Fetched) (w : World) :
  seen msg = true \/ settles (clock w) msg = true ->
  exists w',
    handleFetched msg w =
      (w', Resolved (if announced (clock w) msg then Some (uid msg) else None)) /\
    clock w' = clock w /\
    submissions w' = submissions w /\
    attachment_sets w' = attachment_sets w /\
    length (kafka w') =
      (length (kafka w) + if announced (clock w) msg then 2 else 0)%nat.
Proof.
  unfold Poll.handleFetched, Poll.announced, Poll.settles, tryCatchT.
  destruct (seen msg); [intros _; exists w; cbn; repeat split; lia|].
  intros [Hs|Hs]; [discriminate|]. cbn [negb andb].
  unfold bind at 1, await.
  destruct (source msg) as [parsed|e|]; [|exists w; cbn; repeat split; lia
                                         |discriminate].
  pose proof (uploadParts_outcome (Parser.attachments parsed) w Hs) as Hout.
  match type of Hout with (if ?b then _ else _) => destruct b end.
  - destruct Hout as (urls & Hup).
    destruct (processMessage_run upload_stream parsed (randomId msg) urls w Hup)
      as (Hr & Hk & Hsub & Hatt & Hclock).
    exists (fst (LambdaService.processMessage upload_stream parsed
                   (randomId msg) w)).
    unfold bind.
    destruct (LambdaService.processMessage upload_stream parsed (randomId msg) w)
      as [w' r]. cbn [fst snd] in *. subst r. cbn.
    repeat split; try assumption. rewrite Hk, length_app. reflexivity.
  - destruct Hout as (e & Hfail). exists w.
    assert (Hpm : LambdaService.processMessage upload_stream parsed
                    (randomId msg) w = (w, Rejected e)).
    { unfold LambdaService.processMessage, bind, now, Parser.extractAttachments.
      cbv beta iota. now rewrite Hfail. }
    unfold bind. rewrite Hpm. cbn. repeat split; lia.
Qed.

Lemma fetchLoop_run (msgs : list Fetched) :
  forall (n : nat) (uids : list N) (w : World),
  Forall (fun msg => seen msg = true \/ settles (clock w) msg = true) msgs ->
  let new := map uid (filter (announced (clock w)) msgs) in
  exists w',
    fetchLoop msgs n uids w = (w', Resolved ((n + length new)%nat, uids ++ new)) /\
    clock w' = clock w /\
    submissions w' = submissions w /\
    attachment_sets w' = attachment_sets w /\
    length (kafka w') = (length (kafka w) + 2 * length new)%nat.
Proof.
  induction msgs as [|msg msgs IH]; intros n uids w Hall new.
  - exists w. subst new. cbn. rewrite app_nil_r.
    replace (n + 0)%nat with n by lia. repeat split; lia.
  - inversion Hall as [|? ? Hmsg Hrest]; subst.
    destruct (handleFetched_run msg w Hmsg) as (w1 & Hrun & Hc & Hs & Ha & Hk).
    cbn [Poll.fetchLoop]. unfold bind at 1. rewrite Hrun.
    rewrite <- Hc in Hrest. subst new. cbn [filter].
    destruct (announced (clock w) msg).
    + destruct (IH (S n) (uids ++ [uid msg]) w1 Hrest)
        as (w' & Hloop & Hc' & Hs' & Ha' & Hk').
      exists w'. cbv zeta in Hloop, Hk'. rewrite Hc in Hloop, Hk'. rewrite Hloop.
      cbn [map length]. rewrite <- app_assoc. cbn [app].
      split; [f_equal; f_equal; f_equal; lia|].
      repeat split; try congruence. lia.
    + destruct (IH n uids w1 Hrest) as (w' & Hloop & Hc' & Hs' & Ha' & Hk').
      exists w'. cbv zeta in Hloop, Hk'. rewrite Hc in Hloop, Hk'. rewrite Hloop.
      split; [reflexivity|]. repeat split; try congruence. lia.
Qed.

(** X28. One bad mail does not stop the poll.  When nothing stays pending,
    [processMessages] goes through all fetched messages and resolves; it
    counts, and hands on for marking as seen, exactly the messages that were
    unseen, parsed and fully uploaded, in fetch order; each of them put two
    messages on the channel, the others none, so a mail whose processing
    failed is neither announced nor marked and comes up again at the next
    poll.  The Submission and Attachment-set collections are not touched. *)
Theorem processMessages_counts (msgs : list Fetched) (w : World) :
  Forall (fun msg => seen msg = true \/ settles (clock w) msg = true) msgs ->
  let uids := map uid (filter (announced (clock w)) msgs) in
  exists w',
    processMessages msgs w = (w', Resolved (length uids, uids)) /\
    length (kafka w') = (length (kafka w) + 2 * length uids)%nat /\
    submissions w' = submissions w /\
    attachment_sets w' = attachment_sets w.
Proof.
  intros Hall uids.
  destruct (fetchLoop_run msgs 0%nat [] w Hall)
    as (w' & Hloop & _ & Hs & Ha & Hk).
  exists w'. unfold Poll.processMessages. cbv zeta in Hloop.
  rewrite Hloop. repeat split; assumption.
Qed.

End PollLoop.

Lemma processMessages_counts_witness :
  let msgs :=
    [Poll.mkFetched 11%N false (Resolved MoreSamples.htmlMail) "aa01";
     Poll.mkFetched 12%N false (Resolved MoreSamples.brokenMail) "aa02";
     Poll.mkFetched 13%N true (Resolved MoreSamples.bareMail) "aa03";
     Poll.mkFetched 14%N false (Rejected (JsError "bad source")) "aa04";
     Poll.mkFetched 15%N false (Resolved MoreSamples.bareMail) "aa05"] in
  exists w',
    Poll.processMessages MoreSamples.upload_stream msgs Samples.emptyWorld
    = (w', Resolved (2%nat, [11%N; 15%N])) /\
    length (kafka w') = 4%nat.
Proof.
  intros msgs.
  destruct (processMessages_counts MoreSamples.upload_stream msgs
              Samples.emptyWorld) as (w' & Hrun & Hk & _).
  - repeat (constructor; [first [left; reflexivity|right; reflexivity]|]).
    constructor.
  - exists w'. split; [exact Hrun|exact Hk].
Defined.
